(* ===== verification/_CoqProject ===== *)
-Q . S2P
Prelude.v
Types.v
Records.v
Async.v
Gateway.v
Init.v
Navigation.v
Render.v
Runtime.v
Refinement.v
Lifecycle.v
