(* ===== verification/Prelude.v ===== *)
(** * Dentibuddy: a verification of the application shell (src/App.tsx, src/types.ts)

    ** The program

    Dentibuddy is a single-page React application. Its one piece of logic is
    the [AppContent] component of src/App.tsx, which
    - holds the in-memory router state ([currentPage], [previousPage]: two
      [useState] hooks over the [Page] union of src/types.ts),
    - runs a one-time asynchronous start-up task [initializeApp] that reads
      the cached assistant avatar from the persistence gateway
      ([getValue]/[setValue] of services/dbService, not under src/) and, when
      the value is falsy, asks the image generator ([generateImage] of
      services/geminiService, not under src/) for one and stores it; errors
      are caught and logged, and the [finally] clause clears
      [isAppInitializing],
    - exposes [navigate] ([useCallback] over [currentPage]), which records the
      page left when entering ["auth"] and scrolls the window to the top,
    - watches the identity provider ([useAuth], not under src/) with a
      [useEffect] that compares the user with the one remembered in a
      [useRef] and redirects home on the log-in and log-out edges,
    - renders a loading indicator while the identity provider, the start-up
      task or the translations ([useLanguage], not under src/) are loading,
      and otherwise the page chosen by [renderPage].

    ** Files, and what each models

    - [Prelude] (this file): JavaScript vocabulary shared by all
      components: JS values and their truthiness ([truthy]), the presence
      test of a nullable reference ([present]), [Array.includes]
      ([includes]), strict equality as the notation [===], counting in
      traces, the hint databases [dentibuddy]/[dentibuddy_rw] and tactics.
    - [Types]: src/types.ts lines 1-20: the class [StringUnion] of
      TypeScript string-literal unions (a finite type with an injective
      literal map, decoded by [of_lit]), the [Page] and [Language] unions
      as its instances, and [User].
    - [Records]: src/types.ts lines 22-89: the data interfaces the page
      modules exchange ([ChatMessage], [ChatSession], [SymptomLog],
      [Article], [DirectoryResource], [CommunityReply], [CommunityPost])
      as records with the source's fields, their literal unions ([Role],
      [Level], [Province], [ResourceCategory]) as [StringUnion]s, a
      JavaScript [number] as a binary64 [float], optional and nullable
      fields as options.
    - [Async]: JavaScript [async] functions as an inductive program type
      [Prog] (settle, await a request, perform a synchronous effect), with
      [await], [try_catch], [try_finally]; [run] against a request handler
      (big-step) and [advance] up to the next await (event loop), related
      by [run_advance]; [resume] feeds a suspended program the answers
      the event loop delivers and [replay] is the collaborator giving
      those answers, related by [replay_feed]; [drive] resumes it with
      a collaborator's answers, which [drive_run] relates to [run];
      [req_le] bounds the requests of a kind on every path
      ([awaits_le] counts all awaits).
    - [Gateway]: the collaborators of start-up, not under src/ and
      modelled from the spec: the persistence gateway as the class
      [PersistenceGateway] with its laws and a [gmap] instance, the
      generator's answer per prompt, injected failures, and the handler
      [collab_handler] answering the awaits.
    - [Init]: [initializeApp] (App.tsx lines 27-41) built from the
      combinators exactly as written, and [initializeApp_spec], the spec's
      branch-by-branch description of a run.
    - [Navigation]: [AppState] (the hooks of lines 21-24 and the window
      scroll position), [navigate] (lines 46-52) with the page its
      [useCallback] closure captured, and the watcher [watcher_effect]
      (lines 54-69). The watcher is written against the class
      [NavController] (what [navigate] and the ref promise), its edge
      theorems are proved in a Section over any [NavControllerLaws]
      instance, and [AppState] is such an instance.
    - [Render]: [renderPage_switch] (the [switch] of lines 72-91 on the
      run-time string, default branch included), [renderPage], the
      callback props as closures ([View], [dispatch]) and the readiness
      gate [appContent_render] (lines 94-106).
    - [Runtime]: the React semantics of [AppContent]: the system state
      [Sys] (component state, provider values, pending start-up promise,
      dependencies of the last watcher run, observable trace), [mount]
      (first render, then the two effects in declaration order), [commit]
      (re-render and flush the watcher while its dependencies changed),
      and the executable [step] over [SysEvent]: a provider publishes a
      value, the awaited request settles, the user invokes a callback of
      the rendered page, or scrolls. [reachable] closes [mount] under
      [step]. [App] (lines 110-118) is [AppContent] mounted under its two
      providers.
    - [Refinement]: the spec's controller (sections 4.1 and 9) as the
      abstract machine [SessionSpec] (page, back page, signed-in flag;
      the identity transition table and [navigate]), the abstraction
      [abs_view] and the refinement of the runtime into it.
    - [Lifecycle]: the host that mounts, unmounts and remounts [App],
      closed against the collaborators: [Host] holds the [World], the
      mounted runtime state, the start-up tasks of unmounted instances
      (the effect of lines 26-44 returns no cleanup, so they run on
      detached, their state updates reaching no component) and what was
      observed of them; [host_step] answers every settlement from the
      world and threads it through mounted and detached tasks alike.

    ** What the theorems show

    - Identity watcher (Navigation, C1, C2, C5, C6): redirect home on the
      log-in edge from ["auth"] and on the log-out edge from ["profile"]
      or ["tracker"]; no navigation without a change of presence.
    - [navigate] (C3, C26): its effect on every branch, and over
      sequences of navigations which page is kept to go back to.
    - Start-up (Init, C4, C7, C9, C18-C23, C32): the program runs as the
      spec describes for every collaborator behaviour; the promise never
      rejects and the [finally] setter runs once and last; a failing read
      or write is logged and swallowed like a failing generation; at most
      three awaits, of which at most one generation; the spec's three
      scenarios; what is written and its read-back through any lawful
      gateway.
    - Runtime (C8, C11-C15, C17, C33): the effect loop settles; in every
      reachable state the back page is not ["auth"], the ref is the
      current user, the flag is set exactly while the task is pending, at
      most one generation was requested; start-up completes after three
      settlements whatever else happens; the watcher redirects even while
      only the loading indicator is shown (C17).
    - Refinement (C10, C30): every runtime step is the spec machine's
      transition of its event, and mount starts in its initial state,
      showing the loading indicator.
    - Start-up inside the runtime (Runtime, C34, C35): once settled, the
      trace the event loop observed is the spec's description of
      start-up for the answers delivered and ends by clearing the flag
      (C34); at most six events are ever observed (C35). Both rest on
      [replay_feed], which relates the resumptions of the event loop to
      the big-step run.
    - Mount lifecycle (Lifecycle, C24, C25, C29, C31, C36): in the closed
      world, mounting and letting the collaborators answer three times
      performs start-up as the spec describes it against them, with its
      trace, world and fulfilled promise (C29, via [drive_run]); a
      completed start-up is reused by the next mount, which generates
      nothing (C24); over any interleaving of mounts, unmounts and
      settlements, at most one generation per mount (C25), proved by an
      invariant that counts the generations each mounted or detached
      task may still request; unmounting while the write is awaited
      does not abort it (C31, spec section 5); and the bound is reached:
      unmounting during start-up and remounting generates twice (C36).
    - Rendering (C16, C27, C28): the readiness gate, the back callback,
      every page's component and the [default] branch of the switch.

    ** Bounds and fuel

    [commit] iterates the watcher with fuel 2. That is enough, and more
    fuel changes nothing ([flush_effects_settled], C8): the first run
    remembers the current user, so a second run (needed only when the
    first one navigated) finds no edge. Start-up awaits at most three
    times ([initializeApp_awaits], C21); the runtime invariant keeps the
    remaining bound of the pending continuation, which gives the
    three-settlement liveness bound of C14, and three is the number of
    settlements [drive] is given in C24 and C29 ([drive_run] needs as many
    as the program may await). [resume] is structural in
    the list of answers, so it needs no fuel; the six-event bound of C35
    is the longest run of the spec's description (read, log, generate,
    write, error log, flag).

    ** Modelling choices and what is not modelled

    - React compares dependencies with [Object.is]; the model compares
      the user structurally. A new but equal user object would re-run the
      watcher in React; that run finds no edge and only refreshes the ref.
    - State updates of one event are applied together and followed by
      the re-render and its effects before the next event, as React does
      for discrete events; effects run in declaration order.
    - The identity and language providers, the persistence gateway and
      the generator are not under src/: only what [AppContent] reads of
      them is modelled, as arbitrary environment events or answers.
    - Not modelled: the page components and their internals (not under
      src/; the records of [Records] are what they exchange, and no code
      under src/ operates on them), [ThemeProvider] and [LogoIcon]
      (presentation), and the providers' own implementations (not under
      src/). The imports and the JSX markup of App.tsx
      carry no behaviour beyond what [renderPage] and [appContent_render]
      model.

    ** Findings

    A falsy but present cached avatar (an empty string) is regenerated,
    where the spec says "if absent" (C32); protected pages are guarded only
    on the log-out edge, so a signed-out user can open the profile page
    (C33); the generator is used once per mount, not once overall:
    unmounting during start-up and remounting requests a second
    generation while no avatar is stored yet (C36). *)

From stdpp Require Export base list option numbers strings countable.
From Stdlib Require Export String ZArith.

Declare Scope dentibuddy_scope.
Delimit Scope dentibuddy_scope with dbd.

Create HintDb dentibuddy discriminated.
Create Rewrite HintDb dentibuddy_rw.

(** ** JavaScript values

    The values the persistence gateway stores and the start-up task tests
    for truthiness. Numbers are kept as integers: the gateway only ever
    stores the string returned by the image generator. *)

Inductive JSValue : Type :=
  | JUndefined
  | JNull
  | JBool (b : bool)
  | JNum (z : Z)
  | JStr (s : string).

#[global] Instance JSValue_eq_dec : EqDecision JSValue.
Proof. solve_decision. Defined.

(** ECMAScript ToBoolean on these values: [undefined], [null], [false],
    [0] and the empty string are falsy. *)
Definition truthy (v : JSValue) : bool :=
  match v with
  | JUndefined | JNull => false
  | JBool b => b
  | JNum z => negb (Z.eqb z 0)
  | JStr s => negb (String.eqb s "")
  end.

(** A thrown JavaScript error, kept as its message. *)
Definition JSError := string.

(** Strict equality [===] on a type with decidable equality. *)
Notation "a === b" := (bool_decide (a = b)) (at level 70, no associativity) : dentibuddy_scope.

Open Scope dentibuddy_scope.

(** JavaScript truthiness of a nullable object reference: an object is
    truthy, [null] and [undefined] are not. *)
Definition present {A} (o : option A) : bool :=
  match o with Some _ => true | None => false end.

(** [Array.prototype.includes] on a list of values compared with [===]. *)
Definition includes {A} `{EqDecision A} (l : list A) (x : A) : bool :=
  existsb (fun y => y === x) l.

Lemma includes_spec {A} `{EqDecision A} (l : list A) x :
  includes l x = true <-> x ∈ l.
Proof.
  unfold includes. rewrite existsb_exists, list_elem_of_In.
  split; [intros (y & Hy & Heq); by case_bool_decide; subst|].
  intros Hx. exists x. split; [done|]. by case_bool_decide.
Qed.

Lemma not_includes_spec {A} `{EqDecision A} (l : list A) x :
  includes l x = false <-> x ∉ l.
Proof. rewrite <- includes_spec. destruct (includes l x); intuition congruence. Qed.

(** ** Counting in traces *)

Fixpoint count_where {A} (p : A -> bool) (l : list A) : nat :=
  match l with
  | [] => 0
  | x :: l' => (if p x then 1 else 0) + count_where p l'
  end.

Lemma count_where_app {A} (p : A -> bool) (l1 l2 : list A) :
  count_where p (l1 ++ l2) = count_where p l1 + count_where p l2.
Proof. induction l1 as [|x l1 IH]; simpl; [done|]. rewrite IH. lia. Qed.

#[export] Hint Rewrite @count_where_app : dentibuddy_rw.

(** Replacing one entry of a list of budgets. *)
Lemma sum_list_insert (ms : list nat) i a b :
  ms !! i = Some a -> sum_list (<[i := b]> ms) + a = sum_list ms + b.
Proof.
  revert i. induction ms as [|x ms IH]; intros [|i] Hi; simplify_eq/=; [lia|].
  specialize (IH i Hi). lia.
Qed.

(** ** Tactics shared by the components *)

(** Invert a hypothesis and clean up. *)
Ltac invc H := inversion H; subst; clear H.

(** Case on every [bool_decide] and [if] on a boolean test in the goal. *)
Ltac split_ifs :=
  repeat match goal with
  | |- context [bool_decide ?P] => case_bool_decide
  | |- context [if ?b then _ else _] =>
      lazymatch b with
      | bool_decide _ => fail
      | _ => destruct b eqn:?
      end
  end.

(** Normalise trace arithmetic. *)
Ltac simpl_trace := autorewrite with dentibuddy_rw in *; simpl in *.
