(* ===== verification/Types.v ===== *)
(** Types of src/types.ts: TypeScript unions of string literals as finite
    types with the literal of each member ([StringUnion], decoded by
    [of_lit]), the [Page] union with its run-time strings, [Language], and
    [User]. The other interfaces of the file are in [Records]. *)

From stdpp Require Import finite.
From S2P Require Import Prelude.

(** A union of string literals: a finite type whose members are distinct
    literals at run time. *)
Class StringUnion (A : Type) `{Finite A} := {
  lit : A -> string;
  lit_inj x y : lit x = lit y -> x = y
}.

(** The member a run-time string denotes, if it is one of the union. *)
Definition of_lit {A} `{StringUnion A} (s : string) : option A :=
  find (fun x => String.eqb (lit x) s) (enum A).

(** Decide a closed [NoDup] by computation. *)
Ltac solve_nodup := apply (bool_decide_unpack _); vm_compute; exact I.

(** src/types.ts, lines 12-20: [type Page = "home" | ... | "auth"]. *)
Inductive Page : Type :=
  | Home
  | Chat
  | Learn
  | Directory
  | Tracker
  | Community
  | Profile
  | Auth.

#[global] Instance Page_eq_dec : EqDecision Page.
Proof. solve_decision. Defined.

(** The string a [Page] is at run time. *)
Definition page_str (p : Page) : string :=
  match p with
  | Home => "home"
  | Chat => "chat"
  | Learn => "learn"
  | Directory => "directory"
  | Tracker => "tracker"
  | Community => "community"
  | Profile => "profile"
  | Auth => "auth"
  end.

Definition all_pages : list Page :=
  [Home; Chat; Learn; Directory; Tracker; Community; Profile; Auth].

#[global] Program Instance Page_finite : Finite Page := {| enum := all_pages |}.
Next Obligation. solve_nodup. Qed.
Next Obligation. intros []; repeat constructor. Qed.

#[global] Program Instance Page_union : StringUnion Page := {| lit := page_str |}.
Next Obligation. by intros [] []. Qed.

(** The page a run-time string denotes, if it is one of the union. *)
Definition page_of_string (s : string) : option Page := of_lit s.

(** src/types.ts, line 3: [type Language = 'en' | 'af' | 'xh' | 'zu']. *)
Inductive Language : Type :=
  | En
  | Af
  | Xh
  | Zu.

#[global] Instance Language_eq_dec : EqDecision Language.
Proof. solve_decision. Defined.

Definition language_str (l : Language) : string :=
  match l with
  | En => "en"
  | Af => "af"
  | Xh => "xh"
  | Zu => "zu"
  end.

#[global] Program Instance Language_finite : Finite Language := {| enum := [En; Af; Xh; Zu] |}.
Next Obligation. solve_nodup. Qed.
Next Obligation. intros []; repeat constructor. Qed.

#[global] Program Instance Language_union : StringUnion Language := {| lit := language_str |}.
Next Obligation. by intros [] []. Qed.

(** src/types.ts, lines 5-10: [interface User]; the optional [password]
    is an [option]. *)
Record User : Type := mkUser {
  user_id : string;
  user_name : string;
  user_email : string;
  user_password : option string
}.

#[global] Instance User_eq_dec : EqDecision User.
Proof.
  intros [a b c d] [a' b' c' d'].
  refine (cast_if (decide ((a, b, c, d) = (a', b', c', d'))));
    congruence.
Defined.

(** ** Properties of the page encoding *)

