(* ===== verification/Records.v ===== *)
(** The data interfaces of src/types.ts (lines 22-88) that the page
    modules exchange: chat messages and sessions, symptom logs, articles,
    directory resources and community posts. Each string-literal union of
    a field ([role], [level], [province], [category]) is a finite type
    with its literals ([StringUnion]); a JavaScript [number] is a binary64
    float; an optional field ([?:]) and a nullable one ([| null]) are
    options. *)

From stdpp Require Import finite.
From Stdlib Require Import PrimFloat.
From S2P Require Import Prelude Types.

(** [role: "user" | "model"] (line 23). *)
Inductive Role : Type :=
  | RoleUser
  | RoleModel.

#[global] Instance Role_eq_dec : EqDecision Role.
Proof. solve_decision. Defined.

Definition role_lit (r : Role) : string :=
  match r with
  | RoleUser => "user"
  | RoleModel => "model"
  end.

#[global] Program Instance Role_finite : Finite Role := {| enum := [RoleUser; RoleModel] |}.
Next Obligation. solve_nodup. Qed.
Next Obligation. intros []; repeat constructor. Qed.

#[global] Program Instance Role_union : StringUnion Role := {| lit := role_lit |}.
Next Obligation. by intros [] []. Qed.

(** Lines 22-25. *)
Record ChatMessage : Type := mkChatMessage {
  message_role : Role;
  message_text : string
}.

(** Lines 27-33. *)
Record ChatSession : Type := mkChatSession {
  session_id : string;
  session_userId : string;
  session_title : string;
  session_createdAt : string;
  session_messages : list ChatMessage
}.

(** Lines 35-42. *)
Record SymptomLog : Type := mkSymptomLog {
  log_id : string;
  log_userId : string;
  log_date : string;
  log_symptoms : list string;
  log_severity : float;
  log_notes : option string
}.

(** [level: 'Beginner' | 'Intermediate' | 'Advanced'] (line 47). *)
Inductive Level : Type :=
  | Beginner
  | Intermediate
  | Advanced.

#[global] Instance Level_eq_dec : EqDecision Level.
Proof. solve_decision. Defined.

Definition level_lit (l : Level) : string :=
  match l with
  | Beginner => "Beginner"
  | Intermediate => "Intermediate"
  | Advanced => "Advanced"
  end.

#[global] Program Instance Level_finite : Finite Level :=
  {| enum := [Beginner; Intermediate; Advanced] |}.
Next Obligation. solve_nodup. Qed.
Next Obligation. intros []; repeat constructor. Qed.

#[global] Program Instance Level_union : StringUnion Level := {| lit := level_lit |}.
Next Obligation. by intros [] []. Qed.

(** Lines 44-52; [infographic?: React.FC] is a component of type [FC]. *)
Record Article (FC : Type) : Type := mkArticle {
  article_id : float;
  article_title : string;
  article_level : Level;
  article_readTime : float;
  article_image : string;
  article_content : string;
  article_infographic : option FC
}.

(** [province] (line 58). *)
Inductive Province : Type :=
  | WesternCape
  | Gauteng
  | KwaZuluNatal
  | EasternCape
  | FreeState
  | Limpopo
  | Mpumalanga
  | NorthWest
  | NorthernCape
  | Nationwide.

#[global] Instance Province_eq_dec : EqDecision Province.
Proof. solve_decision. Defined.

Definition province_lit (p : Province) : string :=
  match p with
  | WesternCape => "Western Cape"
  | Gauteng => "Gauteng"
  | KwaZuluNatal => "KwaZulu-Natal"
  | EasternCape => "Eastern Cape"
  | FreeState => "Free State"
  | Limpopo => "Limpopo"
  | Mpumalanga => "Mpumalanga"
  | NorthWest => "North West"
  | NorthernCape => "Northern Cape"
  | Nationwide => "Nationwide"
  end.

#[global] Program Instance Province_finite : Finite Province := {|
  enum := [WesternCape; Gauteng; KwaZuluNatal; EasternCape; FreeState; Limpopo;
           Mpumalanga; NorthWest; NorthernCape; Nationwide] |}.
Next Obligation. solve_nodup. Qed.
Next Obligation. intros []; repeat constructor. Qed.

#[global] Program Instance Province_union : StringUnion Province := {| lit := province_lit |}.
Next Obligation. by intros [] []. Qed.

(** [category] (line 59). *)
Inductive ResourceCategory : Type :=
  | PublicDentalClinic
  | CommunityHealthCenter
  | EmergencyDentalService
  | NGOHealthcareProvider
  | CrisisHelpline.

#[global] Instance ResourceCategory_eq_dec : EqDecision ResourceCategory.
Proof. solve_decision. Defined.

Definition category_lit (c : ResourceCategory) : string :=
  match c with
  | PublicDentalClinic => "Public Dental Clinic"
  | CommunityHealthCenter => "Community Health Center"
  | EmergencyDentalService => "Emergency Dental Service"
  | NGOHealthcareProvider => "NGO Healthcare Provider"
  | CrisisHelpline => "Crisis Helpline"
  end.

#[global] Program Instance ResourceCategory_finite : Finite ResourceCategory := {|
  enum := [PublicDentalClinic; CommunityHealthCenter; EmergencyDentalService;
           NGOHealthcareProvider; CrisisHelpline] |}.
Next Obligation. solve_nodup. Qed.
Next Obligation. intros []; repeat constructor. Qed.

#[global] Program Instance ResourceCategory_union : StringUnion ResourceCategory :=
  {| lit := category_lit |}.
Next Obligation. by intros [] []. Qed.

(** Lines 54-66. *)
Record DirectoryResource : Type := mkDirectoryResource {
  resource_id : string;
  resource_name : string;
  resource_address : string;
  resource_province : Province;
  resource_category : ResourceCategory;
  resource_type : string;
  resource_hours : option string;
  resource_services : string;
  resource_phone : string;
  resource_image : string;
  resource_isHelpline : option bool
}.

(** Lines 68-76; [authorAvatar: string | null]. *)
Record CommunityReply : Type := mkCommunityReply {
  reply_id : string;
  reply_authorId : string;
  reply_authorName : string;
  reply_authorAvatar : option string;
  reply_content : string;
  reply_createdAt : string;
  reply_updatedAt : string
}.

(** Lines 78-89. *)
Record CommunityPost : Type := mkCommunityPost {
  post_id : string;
  post_authorId : string;
  post_authorName : string;
  post_authorAvatar : option string;
  post_title : string;
  post_content : string;
  post_createdAt : string;
  post_updatedAt : string;
  post_views : float;
  post_replies : list CommunityReply
}.

