(* ===== verification/Async.v ===== *)
(** JavaScript [async] functions of src/App.tsx as an inductive program
    type: a program settles, awaits a request to a collaborator, or performs
    a synchronous effect. [try]/[catch]/[finally] are combinators on it.
    [run] executes a program against a request handler (the big-step
    meaning); [advance] executes it up to its next [await] (the event-loop
    meaning, used by the runtime to interleave other events); [run_advance]
    relates the two, and [replay_feed] relates the resumptions of the
    event loop ([resume]) to the big-step run against the answers it
    delivered ([replay]); [drive_run] shows that resuming a program with
    a collaborator as many times as it may await is its big-step run
    against that collaborator. [awaits_le] bounds the awaits on every
    path. *)

From S2P Require Import Prelude.

(** Asynchronous calls of [initializeApp] to its collaborators. *)
Inductive Request : Type :=
  | GetValue (key : string)
  | GenerateImage (prompt : string)
  | SetValue (key : string) (v : JSValue).

#[global] Instance Request_eq_dec : EqDecision Request.
Proof. solve_decision. Defined.

(** Synchronous effects: console output and the state setter. *)
Inductive SyncEffect : Type :=
  | ConsoleLog (msg : string)
  | ConsoleError (msg : string) (err : JSError)
  | SetIsAppInitializing (b : bool).

#[global] Instance SyncEffect_eq_dec : EqDecision SyncEffect.
Proof. solve_decision. Defined.

(** The outcome of a promise. *)
Inductive Settled (A : Type) : Type :=
  | Fulfilled (a : A)
  | Rejected (e : JSError).
Arguments Fulfilled {A} a.
Arguments Rejected {A} e.

(** An [async] function body, cut at its awaits. *)
Inductive Prog (A : Type) : Type :=
  | PSettle (r : Settled A)
  | PAwait (req : Request) (k : Settled JSValue -> Prog A)
  | PEmit (e : SyncEffect) (k : Prog A).
Arguments PSettle {A} r.
Arguments PAwait {A} req k.
Arguments PEmit {A} e k.

Definition pret {A} (a : A) : Prog A := PSettle (Fulfilled a).

(** Sequencing: a rejection skips the rest, as an exception does. *)
Fixpoint pbind {A B} (p : Prog A) (f : A -> Prog B) : Prog B :=
  match p with
  | PSettle (Fulfilled a) => f a
  | PSettle (Rejected e) => PSettle (Rejected e)
  | PAwait req k => PAwait req (fun o => pbind (k o) f)
  | PEmit e k => PEmit e (pbind k f)
  end.

#[global] Instance Prog_ret : MRet Prog := @pret.
#[global] Instance Prog_bind : MBind Prog := fun A B f p => pbind p f.

(** [await r]: suspend on the request; a rejection is thrown at the await. *)
Definition await (req : Request) : Prog JSValue := PAwait req PSettle.

Definition emit (e : SyncEffect) : Prog unit := PEmit e (pret tt).

(** [try { p } catch (e) { h e }]. *)
Fixpoint try_catch {A} (p : Prog A) (h : JSError -> Prog A) : Prog A :=
  match p with
  | PSettle (Fulfilled a) => pret a
  | PSettle (Rejected e) => h e
  | PAwait req k => PAwait req (fun o => try_catch (k o) h)
  | PEmit e k => PEmit e (try_catch k h)
  end.

(** [try { p } finally { fin }]: [fin] runs on both outcomes, then the
    outcome of [p] is re-established unless [fin] itself throws. *)
Fixpoint try_finally {A} (p : Prog A) (fin : Prog unit) : Prog A :=
  match p with
  | PSettle r => pbind fin (fun _ => PSettle r)
  | PAwait req k => PAwait req (fun o => try_finally (k o) fin)
  | PEmit e k => PEmit e (try_finally k fin)
  end.

(** What the outside world observes of a run. *)
Inductive Event : Type :=
  | EvRequest (req : Request)
  | EvEffect (e : SyncEffect).

#[global] Instance Event_eq_dec : EqDecision Event.
Proof. solve_decision. Defined.

(** A collaborator answers a request and may change its own state. *)
Definition Handler (W : Type) := Request -> W -> Settled JSValue * W.

(** Big-step run: the settled result, the collaborators' final state and
    the trace of requests and effects. *)
Fixpoint run {W A} (h : Handler W) (p : Prog A) (w : W)
    : Settled A * W * list Event :=
  match p with
  | PSettle r => (r, w, [])
  | PAwait req k =>
      let '(o, w1) := h req w in
      let '(r, w2, t) := run h (k o) w1 in
      (r, w2, EvRequest req :: t)
  | PEmit e k =>
      let '(r, w1, t) := run h k w in
      (r, w1, EvEffect e :: t)
  end.

(** Where a program stops when run up to its next await. *)
Inductive Suspension (A : Type) : Type :=
  | Finished (r : Settled A)
  | Blocked (req : Request) (k : Settled JSValue -> Prog A).
Arguments Finished {A} r.
Arguments Blocked {A} req k.

(** Run the synchronous part: the effects performed, and the suspension. *)
Fixpoint advance {A} (p : Prog A) : list SyncEffect * Suspension A :=
  match p with
  | PSettle r => ([], Finished r)
  | PAwait req k => ([], Blocked req k)
  | PEmit e k => let '(es, s) := advance k in (e :: es, s)
  end.

(** Every path performs at most [n] requests satisfying [P]. *)
Inductive req_le {A} (P : Request -> bool) : nat -> Prog A -> Prop :=
  | req_le_settle n r : req_le P n (PSettle r)
  | req_le_emit n e k : req_le P n k -> req_le P n (PEmit e k)
  | req_le_other n req k :
      P req = false -> (forall o, req_le P n (k o)) -> req_le P n (PAwait req k)
  | req_le_hit n req k :
      P req = true -> (forall o, req_le P n (k o)) -> req_le P (S n) (PAwait req k).

(** Every path performs at most [n] awaits. *)
Definition awaits_le {A} (n : nat) (p : Prog A) : Prop := req_le (fun _ => true) n p.

#[export] Hint Constructors req_le : dentibuddy.

(** ** Running the combinators *)

(** Continue a run with [f] when it fulfilled. *)
Definition then_run {W A B} (h : Handler W) (f : A -> Prog B)
    (res : Settled A * W * list Event) : Settled B * W * list Event :=
  match res with
  | (Fulfilled a, w1, t1) => let '(r, w2, t2) := run h (f a) w1 in (r, w2, t1 ++ t2)
  | (Rejected e, w1, t1) => (Rejected e, w1, t1)
  end.

(** Continue a run with the handler [hd] when it rejected. *)
Definition catch_run {W A} (h : Handler W) (hd : JSError -> Prog A)
    (res : Settled A * W * list Event) : Settled A * W * list Event :=
  match res with
  | (Fulfilled a, w1, t1) => (Fulfilled a, w1, t1)
  | (Rejected e, w1, t1) => let '(r, w2, t2) := run h (hd e) w1 in (r, w2, t1 ++ t2)
  end.

(** Run [fin] after a run, keeping the run's outcome unless [fin] throws. *)
Definition finally_run {W A} (h : Handler W) (fin : Prog unit)
    (res : Settled A * W * list Event) : Settled A * W * list Event :=
  let '(r, w1, t1) := res in
  let '(rf, w2, t2) := run h fin w1 in
  (match rf with Fulfilled _ => r | Rejected e => Rejected e end, w2, t1 ++ t2).

(** Destruct the results of the runs the goal inspects. *)
Ltac run_cases :=
  repeat match goal with
  | |- context [run ?h ?p ?w] =>
      let r := fresh "r" in let w' := fresh "w" in let t := fresh "t" in
      destruct (run h p w) as [[r w'] t] eqn:?; simpl
  | |- context [match ?x with Fulfilled _ => _ | Rejected _ => _ end] =>
      is_var x; destruct x; simpl
  end; rewrite ?app_nil_r; try done.

Section run_lemmas.
Context {W : Type} (h : Handler W).

Lemma run_pbind {A B} (p : Prog A) (f : A -> Prog B) w :
  run h (pbind p f) w = then_run h f (run h p w).
Proof.
  revert w. induction p as [[a|e]|req k IH|e k IH]; intros w; simpl.
  - run_cases.
  - done.
  - destruct (h req w) as [o w1]. rewrite IH. unfold then_run. run_cases.
  - rewrite IH. unfold then_run. run_cases.
Qed.

Lemma run_try_catch {A} (p : Prog A) (hd : JSError -> Prog A) w :
  run h (try_catch p hd) w = catch_run h hd (run h p w).
Proof.
  revert w. induction p as [[a|e]|req k IH|e k IH]; intros w; simpl.
  - done.
  - run_cases.
  - destruct (h req w) as [o w1]. rewrite IH. unfold catch_run. run_cases.
  - rewrite IH. unfold catch_run. run_cases.
Qed.

Lemma run_try_finally {A} (p : Prog A) (fin : Prog unit) w :
  run h (try_finally p fin) w = finally_run h fin (run h p w).
Proof.
  revert w. induction p as [r|req k IH|e k IH]; intros w; simpl.
  - rewrite run_pbind. unfold then_run, finally_run. run_cases.
  - destruct (h req w) as [o w1]. rewrite IH. unfold finally_run. run_cases.
  - rewrite IH. unfold finally_run. run_cases.
Qed.

(** The event-loop execution agrees with the big-step run: running the
    synchronous prefix, then answering the pending request and running
    the continuation, is the run of the whole program. *)
Lemma run_advance {A} (p : Prog A) w :
  run h p w =
    let '(es, s) := advance p in
    match s with
    | Finished r => (r, w, map EvEffect es)
    | Blocked req k =>
        let '(o, w1) := h req w in
        let '(r, w2, t) := run h (k o) w1 in
        (r, w2, map EvEffect es ++ EvRequest req :: t)
    end.
Proof.
  induction p as [r|req k _|e k IH]; simpl; [done|done|].
  rewrite IH. destruct (advance k) as [es [r|req k']]; simpl; [done|].
  destruct (h req w) as [o w1]. run_cases.
Qed.
End run_lemmas.

(** ** Bounds on requests *)

Section req_bounds.
Context (P : Request -> bool).

Lemma req_le_mono {A} n m (p : Prog A) :
  req_le P n p -> n <= m -> req_le P m p.
Proof.
  intros Hp. revert m.
  induction Hp as [|n e k _ IH|n req k Hr _ IH|n req k Hr _ IH]; intros m Hm.
  - constructor.
  - constructor; auto.
  - apply req_le_other; auto.
  - destruct m as [|m]; [lia|]. apply req_le_hit; [done|]. intros o. apply IH. lia.
Qed.

Lemma req_le_pbind {A B} n m (p : Prog A) (f : A -> Prog B) :
  req_le P n p -> (forall a, req_le P m (f a)) -> req_le P (n + m) (pbind p f).
Proof.
  intros Hp Hf. induction Hp as [n [a|e]|n e k _ IH|n req k Hr _ IH|n req k Hr _ IH];
    simpl.
  - eapply req_le_mono; [apply Hf|lia].
  - constructor.
  - by constructor.
  - by apply req_le_other.
  - by apply req_le_hit.
Qed.

Lemma req_le_try_catch {A} n m (p : Prog A) (hd : JSError -> Prog A) :
  req_le P n p -> (forall e, req_le P m (hd e)) -> req_le P (n + m) (try_catch p hd).
Proof.
  intros Hp Hh. induction Hp as [n [a|e]|n e k _ IH|n req k Hr _ IH|n req k Hr _ IH];
    simpl.
  - constructor.
  - eapply req_le_mono; [apply Hh|lia].
  - by constructor.
  - by apply req_le_other.
  - by apply req_le_hit.
Qed.

Lemma req_le_try_finally {A} n m (p : Prog A) (fin : Prog unit) :
  req_le P n p -> req_le P m fin -> req_le P (n + m) (try_finally p fin).
Proof.
  intros Hp Hf. induction Hp as [n r|n e k _ IH|n req k Hr _ IH|n req k Hr _ IH];
    simpl.
  - eapply req_le_mono; [apply (req_le_pbind m 0); [done|constructor]|lia].
  - by constructor.
  - by apply req_le_other.
  - by apply req_le_hit.
Qed.

(** Stopping at an await on [req] consumes one unit of the bound when
    [req] satisfies [P]. *)
Lemma advance_blocked_req_le {A} n (p : Prog A) es req k :
  req_le P n p -> advance p = (es, Blocked req k) ->
  exists m, n = m + (if P req then 1 else 0) /\ forall o, req_le P m (k o).
Proof.
  intros Hp. revert es.
  induction Hp as [n r|n e k' _ IH|n req' k' Hr Hk _|n req' k' Hr Hk _];
    intros es Hadv; simpl in Hadv.
  - done.
  - destruct (advance k') as [es' s] eqn:E. injection Hadv as <- ->. eauto.
  - injection Hadv as <- <- <-. exists n. rewrite Hr. split; [lia|done].
  - injection Hadv as <- <- <-. exists n. rewrite Hr. split; [lia|done].
Qed.
End req_bounds.

(** Prove a [req_le] bound on a concrete program, deciding [P] on each
    request by computation. *)
Ltac solve_req_le :=
  repeat first
    [ intros ?
    | apply req_le_settle
    | apply req_le_emit
    | apply req_le_hit; [reflexivity|intros ?]
    | apply req_le_other; [reflexivity|intros ?] ].

(** ** The event loop replays a big-step run

    The runtime resumes a suspended program each time its request
    settles. [resume] feeds a suspension the answers delivered so far, in
    order, and returns what was observed and where the program stopped;
    [replay] is the collaborator that gives exactly those answers. *)

(** Run up to the next await and observe its effects and its request. *)
Definition advance_trace {A} (p : Prog A) : list Event * Suspension A :=
  let '(es, s) := advance p in
  (map EvEffect es ++ match s with Blocked req _ => [EvRequest req] | Finished _ => [] end, s).

Fixpoint resume {A} (s : Suspension A) (os : list (Settled JSValue))
    : list Event * Suspension A :=
  match s, os with
  | Blocked _ k, o :: os' =>
      let '(t1, s1) := advance_trace (k o) in
      let '(t2, s2) := resume s1 os' in (t1 ++ t2, s2)
  | _, _ => ([], s)
  end.

(** Start a program and feed it the answers. *)
Definition feed {A} (p : Prog A) (os : list (Settled JSValue)) : list Event * Suspension A :=
  let '(t1, s1) := advance_trace p in
  let '(t2, s2) := resume s1 os in (t1 ++ t2, s2).

(** Answers from a list, in order; past its end, [undefined]. *)
Definition replay : Handler (list (Settled JSValue)) := fun _ os =>
  match os with
  | o :: os' => (o, os')
  | [] => (Fulfilled JUndefined, [])
  end.

Lemma resume_finished {A} (r : Settled A) os : resume (Finished r) os = ([], Finished r).
Proof. by destruct os. Qed.

(** What the event loop observed is a prefix of the big-step run against
    the replayed answers, and all of it once the program settled. *)
Lemma replay_feed {A} (p : Prog A) os :
  (exists t', (run replay p os).2 = (feed p os).1 ++ t') /\
  (forall r, (feed p os).2 = Finished r ->
     exists rest, run replay p os = (r, rest, (feed p os).1)).
Proof.
  revert p. induction os as [|o os IH]; intros p;
    rewrite run_advance; unfold feed, advance_trace;
    destruct (advance p) as [es [r|req k]]; simpl; rewrite ?app_nil_r.
  - split; [exists []; by rewrite app_nil_r|]. intros ? [= ->]. eauto.
  - destruct (run replay (k (Fulfilled JUndefined)) []) as [[r w] t].
    split; [|done]. exists t. by rewrite <- app_assoc.
  - split; [exists []; by rewrite app_nil_r|]. intros ? [= ->]. eauto.
  - destruct (IH (k o)) as [[t' Ht'] Hfin]. unfold feed in Ht', Hfin.
    destruct (advance_trace (k o)) as [t1 s1], (resume s1 os) as [t2 s2].
    destruct (run replay (k o) os) as [[r w] t]. simpl in *.
    split.
    + exists t'. rewrite Ht'. by rewrite <- !app_assoc.
    + intros r' ->. destruct (Hfin r' eq_refl) as (rest & [= -> -> ->]).
      exists rest. by rewrite <- !app_assoc.
Qed.

(** ** The event loop against a collaborator

    [drive h n s w] resumes a suspension at most [n] times, each pending
    request answered by [h], threading the collaborator's state. *)
Fixpoint drive {W A} (h : Handler W) (n : nat) (s : Suspension A) (w : W)
    : list Event * Suspension A * W :=
  match n, s with
  | S n', Blocked req k =>
      let '(o, w1) := h req w in
      let '(t1, s1) := advance_trace (k o) in
      let '(t2, s2, w2) := drive h n' s1 w1 in (t1 ++ t2, s2, w2)
  | _, _ => ([], s, w)
  end.

(** Start a program and drive it. *)
Definition drive_from {W A} (h : Handler W) (n : nat) (p : Prog A) (w : W)
    : list Event * Suspension A * W :=
  let '(t1, s1) := advance_trace p in
  let '(t2, s2, w2) := drive h n s1 w in (t1 ++ t2, s2, w2).

(** Driving a program as many times as it may await gives its big-step
    run: same trace, same outcome, same collaborator state. *)
Lemma drive_run {W A} (h : Handler W) n (p : Prog A) w :
  awaits_le n p ->
  drive_from h n p w = let '(r, w', t) := run h p w in (t, Finished r, w').
Proof.
  intros Hp. revert w. unfold drive_from.
  induction Hp as [n r|n e k _ IH|n req k Hf _ _|n req k _ _ IH]; intros w.
  - by destruct n.
  - specialize (IH w). unfold advance_trace in *. simpl.
    destruct (advance k) as [es s]. destruct (drive h n s w) as [[t2 s2] w2].
    destruct (run h k w) as [[r w'] t]. simpl in *. by injection IH as <- -> ->.
  - done.
  - simpl. destruct (h req w) as [o w1]. specialize (IH o w1).
    destruct (advance_trace (k o)) as [t1 s1].
    destruct (drive h n s1 w1) as [[t2 s2] w2].
    destruct (run h (k o) w1) as [[r w'] t]. by injection IH as <- -> ->.
Qed.

Lemma drive_finished {W A} (h : Handler W) n (r : Settled A) w :
  drive h n (Finished r) w = ([], Finished r, w).
Proof. by destruct n. Qed.
