(* ===== verification/Gateway.v ===== *)
(** The collaborators of the start-up task, which are not under src/ and
    are modelled from the spec (section 6): the persistence gateway
    (services/dbService: [getValue]/[setValue]) as an interface with its
    laws and a [gmap] instance, the image generator
    (services/geminiService: [generateImage]) as an answer per prompt, and
    the request handler that answers the awaits of [initializeApp], where
    every call may fail. *)

From stdpp Require Import gmap.
From S2P Require Import Prelude Async.

(** What the persistence gateway promises: a key-value store. *)
Class PersistenceGateway (St : Type) := {
  getValue : string -> St -> option JSValue;
  setValue : string -> JSValue -> St -> St
}.

Class PersistenceGatewayLaws (St : Type) `{PersistenceGateway St} := {
  getValue_setValue_eq k v s : getValue k (setValue k v s) = Some v;
  getValue_setValue_ne k k' v s : k <> k' -> getValue k' (setValue k v s) = getValue k' s
}.

(** The store as a finite map from keys to values. *)
#[global] Instance gmap_gateway : PersistenceGateway (gmap string JSValue) := {
  getValue k s := s !! k;
  setValue k v s := <[k := v]> s
}.

#[global] Instance gmap_gateway_laws : PersistenceGatewayLaws (gmap string JSValue).
Proof.
  split; intros; simpl.
  - apply lookup_insert_eq.
  - by apply lookup_insert_ne.
Qed.

(** The collaborators' state: the store, the generator's answer to a
    prompt, and the calls that fail (with the error they throw). *)
Record World (St : Type) := mkWorld {
  store : St;
  generator : string -> Settled JSValue;
  fault : Request -> option JSError
}.
Arguments mkWorld {St} store generator fault.
Arguments store {St} w.
Arguments generator {St} w.
Arguments fault {St} w.

Definition with_store {St} (w : World St) (s : St) : World St :=
  mkWorld s (generator w) (fault w).

Section handler.
Context {St : Type} `{PersistenceGateway St}.

(** How the collaborators answer each request: [getValue] resolves to
    [undefined] for a missing key; [setValue] resolves once stored. *)
Definition collab_handler : Handler (World St) := fun req w =>
  match fault w req with
  | Some err => (Rejected err, w)
  | None =>
      match req with
      | GetValue k => (Fulfilled (default JUndefined (getValue k (store w))), w)
      | GenerateImage prompt => (generator w prompt, w)
      | SetValue k v => (Fulfilled JUndefined, with_store w (setValue k v (store w)))
      end
  end.

(** A world where no call fails. *)
Definition reliable (w : World St) : Prop := forall req, fault w req = None.

Lemma reliable_with_store w s : reliable w -> reliable (with_store w s).
Proof. done. Qed.

Lemma collab_handler_reliable req w :
  reliable w -> collab_handler req w =
    match req with
    | GetValue k => (Fulfilled (default JUndefined (getValue k (store w))), w)
    | GenerateImage prompt => (generator w prompt, w)
    | SetValue k v => (Fulfilled JUndefined, with_store w (setValue k v (store w)))
    end.
Proof. intros Hr. unfold collab_handler. by rewrite Hr. Qed.

End handler.

#[export] Hint Resolve reliable_with_store : dentibuddy.
