(* ===== verification/Init.v ===== *)
(** The start-up task of [AppContent] (src/App.tsx lines 26-44):
    [initializeApp] as an [async] program, the direct description of its
    runs [initializeApp_spec] (one branch per collaborator answer, as spec
    section 4.1 describes it), their equivalence, and the behaviour that
    follows: the promise never rejects, the [finally] clause runs exactly
    once and last, at most one generation, at most three awaits, what is
    stored, and the next mount's reuse of the stored avatar. *)

From stdpp Require Import gmap.
From S2P Require Import Prelude Async Gateway.

Definition aiAvatarKey : string := "aiAssistantAvatar".

Definition aiAvatarPrompt : string :=
  "A modern, friendly AI assistant avatar for a dental health app. Stylized tooth logo subtly integrated with a sound wave or a gentle smile curve. Use a clean, minimalist design with a soft color palette of teal (#14b8a6), light blue (#38bdf8), and white. Smooth gradients. Flat 2D vector style. Centered in a circle.".

Definition msg_no_avatar : string := "No AI assistant avatar found, generating one...".

Definition msg_init_failed : string := "Failed to initialize app data:".

(** The [try] block (lines 29-35). *)
Definition initializeApp_try : Prog unit :=
  aiAvatar ← await (GetValue aiAvatarKey);
  if negb (truthy aiAvatar) then
    emit (ConsoleLog msg_no_avatar);;
    avatarUrl ← await (GenerateImage aiAvatarPrompt);
    await (SetValue aiAvatarKey avatarUrl);;
    pret tt
  else pret tt.

(** The whole function (lines 27-41): [catch] logs, [finally] clears the
    initialising flag. *)
Definition initializeApp : Prog unit :=
  try_finally
    (try_catch initializeApp_try
       (fun error => emit (ConsoleError msg_init_failed error)))
    (emit (SetIsAppInitializing false)).

(** ** The runs, one branch per answer *)

Definition ev_get : Event := EvRequest (GetValue aiAvatarKey).
Definition ev_log : Event := EvEffect (ConsoleLog msg_no_avatar).
Definition ev_gen : Event := EvRequest (GenerateImage aiAvatarPrompt).
Definition ev_set (url : JSValue) : Event := EvRequest (SetValue aiAvatarKey url).
Definition ev_error (e : JSError) : Event := EvEffect (ConsoleError msg_init_failed e).
Definition ev_done : Event := EvEffect (SetIsAppInitializing false).

(** The runs of the start-up task as the spec describes them: read; if
    the value is falsy, generate and write; any failure is logged; the
    flag is cleared at the end. *)
Definition initializeApp_spec {W} (h : Handler W) (w : W)
    : Settled unit * W * list Event :=
  let finish w t := (Fulfilled tt, w, t ++ [ev_done]) in
  let fail w t e := finish w (t ++ [ev_error e]) in
  match h (GetValue aiAvatarKey) w with
  | (Rejected e, w1) => fail w1 [ev_get] e
  | (Fulfilled v, w1) =>
      if truthy v then finish w1 [ev_get]
      else
        let t1 := [ev_get; ev_log; ev_gen] in
        match h (GenerateImage aiAvatarPrompt) w1 with
        | (Rejected e, w2) => fail w2 t1 e
        | (Fulfilled url, w2) =>
            let t2 := t1 ++ [ev_set url] in
            match h (SetValue aiAvatarKey url) w2 with
            | (Rejected e, w3) => fail w3 t2 e
            | (Fulfilled _, w3) => finish w3 t2
            end
        end
  end.

(** Events that are generation requests, and the clearing of the flag. *)
Definition is_generate (ev : Event) : bool :=
  match ev with EvRequest (GenerateImage _) => true | _ => false end.

Definition is_init_done (ev : Event) : bool :=
  match ev with EvEffect (SetIsAppInitializing _) => true | _ => false end.

(** Case on each collaborator answer of a start-up run. *)
Ltac init_cases h :=
  repeat match goal with
  | |- context [truthy ?v] => is_var v; destruct (truthy v) eqn:?; simpl
  | |- context [match ?o with Fulfilled _ => _ | Rejected _ => _ end] =>
      is_var o; destruct o; simpl
  | |- context [h ?req ?w] =>
      let o := fresh "o" in let w' := fresh "w" in
      destruct (h req w) as [o w'] eqn:?; simpl
  end.

(** Unfold a run of [initializeApp] and case on every answer. *)
Ltac init_run h :=
  unfold initializeApp, initializeApp_spec, initializeApp_try; simpl; init_cases h.

(** Every run the spec describes fulfils, clears the flag once and last,
    and generates at most once. *)
Lemma initializeApp_spec_outcome {W} (h : Handler W) (w : W) :
  let '(r, _, t) := initializeApp_spec h w in
  r = Fulfilled tt /\ list.last t = Some ev_done /\
  count_where is_init_done t = 1 /\ count_where is_generate t <= 1.
Proof. unfold initializeApp_spec. init_cases h; repeat split; simpl; lia. Qed.

(** A run the spec describes observes at most six events. *)
Lemma initializeApp_spec_length {W} (h : Handler W) (w : W) :
  List.length (initializeApp_spec h w).2 <= 6.
Proof. unfold initializeApp_spec. init_cases h; simpl; lia. Qed.

(** C4: the program of [initializeApp] runs exactly as the spec's
    description of start-up, for every behaviour of the collaborators. *)
Theorem initializeApp_run {W} (h : Handler W) (w : W) :
  run h initializeApp w = initializeApp_spec h w.
Proof. init_run h; reflexivity. Qed.

(** C7: whatever the collaborators answer, the promise of [initializeApp]
    is fulfilled (it never rejects, so the floating call at line 43 never
    raises an unhandled rejection), the [finally] clause clears the flag
    exactly once and as the last event, and at most one image is
    generated. *)
Theorem initializeApp_outcome {W} (h : Handler W) (w : W) :
  let '(r, _, t) := run h initializeApp w in
  r = Fulfilled tt /\ list.last t = Some ev_done /\
  count_where is_init_done t = 1 /\ count_where is_generate t <= 1.
Proof. init_run h; repeat split; simpl; lia. Qed.

(** C9: a failing gateway call is caught like a failing generation (spec
    section 7): when the read rejects, the error is logged, nothing is
    generated or written, and the flag is cleared; when the write of a
    generated avatar rejects, the error is logged after the write was
    requested, and the flag is cleared; in both cases the promise is
    fulfilled. *)
Theorem initializeApp_gateway_errors {W} (h : Handler W) w w1 w2 w3 v url e :
  (h (GetValue aiAvatarKey) w = (Rejected e, w1) ->
   run h initializeApp w = (Fulfilled tt, w1, [ev_get; ev_error e; ev_done])) /\
  (h (GetValue aiAvatarKey) w = (Fulfilled v, w1) -> truthy v = false ->
   h (GenerateImage aiAvatarPrompt) w1 = (Fulfilled url, w2) ->
   h (SetValue aiAvatarKey url) w2 = (Rejected e, w3) ->
   run h initializeApp w =
     (Fulfilled tt, w3, [ev_get; ev_log; ev_gen; ev_set url; ev_error e; ev_done])).
Proof.
  unfold initializeApp, initializeApp_try. split.
  - intros Hg. simpl. by rewrite Hg.
  - intros Hg Hv Hgen Hset. simpl. rewrite Hg. simpl. rewrite Hv. simpl.
    rewrite Hgen. simpl. by rewrite Hset.
Qed.

(** Every path of the start-up program awaits at most three times. *)
Lemma initializeApp_awaits_le : awaits_le 3 initializeApp.
Proof.
  apply (req_le_try_finally _ 3 0); [|by solve_req_le].
  apply (req_le_try_catch _ 3 0); [|by solve_req_le].
  apply (req_le_pbind _ 1 2); [by solve_req_le|].
  intros v. destruct (negb (truthy v)); [|by solve_req_le].
  apply (req_le_pbind _ 0 2); [by solve_req_le|]. intros [].
  apply (req_le_pbind _ 1 1); [by solve_req_le|]. intros url.
  apply (req_le_pbind _ 1 0); [by solve_req_le|]. by solve_req_le.
Qed.

(** Generation requests. *)
Definition is_generate_req (req : Request) : bool :=
  match req with GenerateImage _ => true | _ => false end.

(** Every path of the start-up program requests at most one generation. *)
Lemma initializeApp_generate_le : req_le is_generate_req 1 initializeApp.
Proof.
  apply (req_le_try_finally _ 1 0); [|by solve_req_le].
  apply (req_le_try_catch _ 1 0); [|by solve_req_le].
  apply (req_le_pbind _ 0 1); [by solve_req_le|].
  intros v. destruct (negb (truthy v)); [|by solve_req_le].
  apply (req_le_pbind _ 0 1); [by solve_req_le|]. intros [].
  apply (req_le_pbind _ 1 0); [by solve_req_le|]. intros url.
  apply (req_le_pbind _ 0 0); [by solve_req_le|]. by solve_req_le.
Qed.

(** C21: every path of the start-up program awaits at most three times
    (read, generate, write), so its event-loop execution is resumed at
    most three times, and at most one of those awaits is a generation. *)
Theorem initializeApp_awaits :
  awaits_le 3 initializeApp /\ req_le is_generate_req 1 initializeApp.
Proof. split; [exact initializeApp_awaits_le|exact initializeApp_generate_le]. Qed.

(** A run of [initializeApp] is the spec's run, as an equation to
    rewrite with. *)
Lemma initializeApp_run_eq {W} (h : Handler W) (w : W) :
  run h initializeApp w = initializeApp_spec h w.
Proof. init_run h; reflexivity. Qed.

Definition is_set_init (e : SyncEffect) : bool :=
  match e with SetIsAppInitializing _ => true | _ => false end.

(** The flag setter is called on every path exactly once, as the last
    effect before the promise settles, and with [false]. *)
Inductive clears_last : Prog unit -> Prop :=
  | clears_last_final r : clears_last (PEmit (SetIsAppInitializing false) (PSettle r))
  | clears_last_emit e k : is_set_init e = false -> clears_last k -> clears_last (PEmit e k)
  | clears_last_await req k : (forall o, clears_last (k o)) -> clears_last (PAwait req k).

Lemma initializeApp_clears_last : clears_last initializeApp.
Proof.
  unfold initializeApp, initializeApp_try. simpl.
  repeat first
    [ apply clears_last_final
    | apply clears_last_emit; [reflexivity|]
    | apply clears_last_await; intros [?|?]; simpl
    | destruct (truthy _); simpl ].
Qed.

(** Running a program that clears the flag last up to its next await:
    either it blocks without having touched the flag, or it settles
    right after clearing it. *)
Lemma advance_clears_last p es s :
  clears_last p -> advance p = (es, s) ->
  match s with
  | Finished _ => exists es0, es = es0 ++ [SetIsAppInitializing false] /\
                    Forall (fun e => is_set_init e = false) es0
  | Blocked _ k => Forall (fun e => is_set_init e = false) es /\
                   forall o, clears_last (k o)
  end.
Proof.
  intros Hp. revert es s. induction Hp as [r|e k He Hk IH|req k Hk _]; intros es s Hadv;
    simpl in Hadv.
  - injection Hadv as <- <-. by exists [].
  - destruct (advance k) as [es' s'] eqn:E. injection Hadv as <- <-.
    specialize (IH _ _ eq_refl). destruct s' as [r|req k'].
    + destruct IH as (es0 & -> & Hf). exists (e :: es0). by split; [|constructor].
    + destruct IH as [Hf Hk']. by split; [constructor|].
  - injection Hadv as <- <-. by split.
Qed.

(** ** The spec's start-up scenarios *)

(** C18: with no cached avatar (the read gives a falsy value), the
    generator is called once, its answer is written under
    ["aiAssistantAvatar"], and the flag is cleared. *)
Theorem initializeApp_generates {W} (h : Handler W) w w1 w2 w3 v url ack :
  h (GetValue aiAvatarKey) w = (Fulfilled v, w1) -> truthy v = false ->
  h (GenerateImage aiAvatarPrompt) w1 = (Fulfilled url, w2) ->
  h (SetValue aiAvatarKey url) w2 = (Fulfilled ack, w3) ->
  run h initializeApp w =
    (Fulfilled tt, w3, [ev_get; ev_log; ev_gen; ev_set url; ev_done]).
Proof.
  intros Hg Hv Hgen Hset. rewrite initializeApp_run_eq. unfold initializeApp_spec.
  by rewrite Hg, Hv, Hgen, Hset.
Qed.

(** C19: with a cached avatar (a truthy value), the generator is never
    called and the flag is cleared. *)
Theorem initializeApp_cached {W} (h : Handler W) w w1 v :
  h (GetValue aiAvatarKey) w = (Fulfilled v, w1) -> truthy v = true ->
  run h initializeApp w = (Fulfilled tt, w1, [ev_get; ev_done]).
Proof.
  intros Hg Hv. rewrite initializeApp_run_eq. unfold initializeApp_spec.
  by rewrite Hg, Hv.
Qed.

(** C20: when the generator throws, the error is logged, nothing is
    written, and the flag is still cleared. *)
Theorem initializeApp_generation_error {W} (h : Handler W) w w1 w2 v e :
  h (GetValue aiAvatarKey) w = (Fulfilled v, w1) -> truthy v = false ->
  h (GenerateImage aiAvatarPrompt) w1 = (Rejected e, w2) ->
  run h initializeApp w =
    (Fulfilled tt, w2, [ev_get; ev_log; ev_gen; ev_error e; ev_done]).
Proof.
  intros Hg Hv Hgen. rewrite initializeApp_run_eq. unfold initializeApp_spec.
  by rewrite Hg, Hv, Hgen.
Qed.

(** C22: the only write of a start-up run stores, under
    ["aiAssistantAvatar"], the value the generator fulfilled with, after a
    read that gave a falsy value. *)
Theorem initializeApp_writes_generated {W} (h : Handler W) w k v :
  EvRequest (SetValue k v) ∈ (run h initializeApp w).2 ->
  k = aiAvatarKey /\
  exists v0 w1 w2, h (GetValue aiAvatarKey) w = (Fulfilled v0, w1) /\
    truthy v0 = false /\ h (GenerateImage aiAvatarPrompt) w1 = (Fulfilled v, w2).
Proof.
  rewrite initializeApp_run_eq. unfold initializeApp_spec.
  init_cases h; intros Hin; apply list_elem_of_In in Hin; simpl in Hin;
    repeat match goal with
    | H : _ \/ _ |- _ => destruct H as [H|H]
    | H : False |- _ => destruct H
    end; unfold ev_get, ev_log, ev_gen, ev_set, ev_error, ev_done in *;
    simplify_eq; eauto 10.
Qed.

(** ** Against the persistence gateway *)

Section with_gateway.
Context {St : Type} `{PersistenceGatewayLaws St}.

(** A reliable world with no truthy avatar stored: start-up generates
    and writes. *)
Lemma initializeApp_collab_generates (w : World St) url :
  reliable w -> truthy (default JUndefined (getValue aiAvatarKey (store w))) = false ->
  generator w aiAvatarPrompt = Fulfilled url ->
  run collab_handler initializeApp w =
    (Fulfilled tt, with_store w (setValue aiAvatarKey url (store w)),
     [ev_get; ev_log; ev_gen; ev_set url; ev_done]).
Proof.
  intros Hr Hv Hg. rewrite initializeApp_run_eq. unfold initializeApp_spec.
  rewrite !collab_handler_reliable by eauto with dentibuddy. simpl.
  rewrite Hv, Hg. rewrite collab_handler_reliable by eauto with dentibuddy.
  reflexivity.
Qed.

(** C23: round trip through the gateway: on a reliable world with no
    truthy avatar stored, reading ["aiAssistantAvatar"] after start-up
    gives the generated avatar. *)
Theorem initializeApp_stores_avatar (w : World St) url :
  reliable w -> truthy (default JUndefined (getValue aiAvatarKey (store w))) = false ->
  generator w aiAvatarPrompt = Fulfilled url ->
  getValue aiAvatarKey (store (run collab_handler initializeApp w).1.2) = Some url.
Proof.
  intros Hr Hv Hg. rewrite (initializeApp_collab_generates w url); [|done..].
  apply getValue_setValue_eq.
Qed.

(** A reliable world with a truthy avatar stored: start-up reads it and
    finishes. *)
Lemma initializeApp_collab_cached (w : World St) v :
  reliable w -> getValue aiAvatarKey (store w) = Some v -> truthy v = true ->
  run collab_handler initializeApp w = (Fulfilled tt, w, [ev_get; ev_done]).
Proof.
  intros Hr Hs Hv. rewrite initializeApp_run_eq. unfold initializeApp_spec.
  rewrite collab_handler_reliable by done. simpl. rewrite Hs. simpl. by rewrite Hv.
Qed.

(** C32: a value that is present but falsy (an empty string, [null],
    [false], [0]) is treated as missing: start-up generates a new
    avatar although the key is not absent. *)
Theorem initializeApp_regenerates_falsy (w : World St) v :
  reliable w -> getValue aiAvatarKey (store w) = Some v -> truthy v = false ->
  count_where is_generate (run collab_handler initializeApp w).2 = 1.
Proof.
  intros Hr Hs Hv. rewrite initializeApp_run_eq. unfold initializeApp_spec.
  rewrite !collab_handler_reliable; eauto with dentibuddy. simpl.
  rewrite Hs. simpl. rewrite Hv.
  destruct (generator w aiAvatarPrompt) as [url|e]; simpl;
    rewrite ?collab_handler_reliable; eauto with dentibuddy.
Qed.
End with_gateway.

(** ** Witnesses on a concrete store *)

Definition demo_avatar : JSValue := JStr "blob:avatar".

(** An empty store, a generator that answers, no failure. *)
Definition demo_world : World (gmap string JSValue) :=
  mkWorld ∅ (fun _ => Fulfilled demo_avatar) (fun _ => None).

Lemma initializeApp_generates_witness :
  run collab_handler initializeApp demo_world =
    (Fulfilled tt, with_store demo_world {[aiAvatarKey := demo_avatar]},
     [ev_get; ev_log; ev_gen; ev_set demo_avatar; ev_done]).
Proof.
  apply (initializeApp_generates collab_handler demo_world demo_world demo_world
    _ JUndefined demo_avatar JUndefined); reflexivity.
Defined.

(** The same world after a first start-up stored the avatar. *)
Definition demo_world_cached : World (gmap string JSValue) :=
  with_store demo_world {[aiAvatarKey := demo_avatar]}.

Lemma initializeApp_cached_witness :
  run collab_handler initializeApp demo_world_cached =
    (Fulfilled tt, demo_world_cached, [ev_get; ev_done]).
Proof.
  apply (initializeApp_cached collab_handler demo_world_cached demo_world_cached demo_avatar);
    reflexivity.
Defined.

Lemma initializeApp_generation_error_witness :
  run collab_handler initializeApp
    (mkWorld ∅ (fun _ => Rejected "quota exceeded") (fun _ => None)) =
    (Fulfilled tt, mkWorld ∅ (fun _ => Rejected "quota exceeded") (fun _ => None),
     [ev_get; ev_log; ev_gen; ev_error "quota exceeded"; ev_done]).
Proof.
  set (w := mkWorld ∅ (fun _ => Rejected "quota exceeded") (fun _ => None)).
  apply (initializeApp_generation_error collab_handler w w w JUndefined); reflexivity.
Defined.

Lemma initializeApp_writes_generated_witness :
  aiAvatarKey = aiAvatarKey /\
  exists v0 w1 w2, collab_handler (GetValue aiAvatarKey) demo_world = (Fulfilled v0, w1) /\
    truthy v0 = false /\
    collab_handler (GenerateImage aiAvatarPrompt) w1 = (Fulfilled demo_avatar, w2).
Proof.
  apply (initializeApp_writes_generated collab_handler demo_world).
  apply list_elem_of_In. vm_compute. tauto.
Defined.

Lemma initializeApp_stores_avatar_witness :
  getValue aiAvatarKey (store (run collab_handler initializeApp demo_world).1.2) = Some demo_avatar.
Proof. apply initializeApp_stores_avatar; [intros ?|..]; reflexivity. Defined.

Lemma initializeApp_regenerates_falsy_witness :
  count_where is_generate
    (run collab_handler initializeApp (with_store demo_world {[aiAvatarKey := JStr ""]})).2 = 1.
Proof. apply (initializeApp_regenerates_falsy _ (JStr "")); [intros ?|..]; reflexivity. Defined.

(** The same world where the gateway is offline. *)
Definition demo_world_offline : World (gmap string JSValue) :=
  mkWorld ∅ (fun _ => Fulfilled demo_avatar) (fun _ => Some "offline").

Lemma initializeApp_gateway_errors_witness :
  run collab_handler initializeApp demo_world_offline =
    (Fulfilled tt, demo_world_offline, [ev_get; ev_error "offline"; ev_done]).
Proof.
  apply (proj1 (initializeApp_gateway_errors collab_handler demo_world_offline
    demo_world_offline demo_world_offline demo_world_offline JUndefined demo_avatar
    "offline")).
  reflexivity.
Defined.
