(* ===== verification/Navigation.v ===== *)
(** The navigation controller of [AppContent] (src/App.tsx lines 21-24,
    46-52, 54-69): the component state, [navigate] with the value its
    [useCallback] closure captured, and the identity watcher effect. The
    watcher is written against the interface [NavController], which
    states what [navigate] and the user reference promise; its edge
    behaviour is proved against the interface, and [AppState] implements
    it. *)

From S2P Require Import Prelude Types.

(** The state of [AppContent]: its three [useState] hooks, its [useRef],
    and the window's scroll position that [navigate] resets. *)
Record AppState : Type := mkAppState {
  currentPage : Page;
  previousPage : Page;
  isAppInitializing : bool;
  prevUserRef : option User;
  scroll : Z * Z
}.

Definition set_currentPage (p : Page) (s : AppState) : AppState :=
  mkAppState p (previousPage s) (isAppInitializing s) (prevUserRef s) (scroll s).
Definition set_previousPage (p : Page) (s : AppState) : AppState :=
  mkAppState (currentPage s) p (isAppInitializing s) (prevUserRef s) (scroll s).
Definition set_isAppInitializing (b : bool) (s : AppState) : AppState :=
  mkAppState (currentPage s) (previousPage s) b (prevUserRef s) (scroll s).
Definition set_prevUserRef (u : option User) (s : AppState) : AppState :=
  mkAppState (currentPage s) (previousPage s) (isAppInitializing s) u (scroll s).

(** [window.scrollTo(x, y)]. *)
Definition scrollTo (x y : Z) (s : AppState) : AppState :=
  mkAppState (currentPage s) (previousPage s) (isAppInitializing s) (prevUserRef s) (x, y).

(** The state at mount (lines 21-24): the reference starts at the user
    of the first render. *)
Definition initial_state (currentUser : option User) (sc : Z * Z) : AppState :=
  mkAppState Home Home true currentUser sc.

(** [navigate] (lines 46-52). [captured] is the [currentPage] of the
    render that created the callback ([useCallback] over [currentPage]). *)
Definition navigate (captured : Page) (page : Page) (s : AppState) : AppState :=
  let s1 := if page === Auth then set_previousPage captured s else s in
  scrollTo 0 0 (set_currentPage page s1).

(** What the watcher needs of the controller state. *)
Class NavController (S : Type) := {
  nav_current : S -> Page;
  nav_previous : S -> Page;
  nav_user_ref : S -> option User;
  nav_set_user_ref : option User -> S -> S;
  nav_go : Page -> S -> S
}.

Class NavControllerLaws (S : Type) `{NavController S} := {
  nav_go_current p s : nav_current (nav_go p s) = p;
  nav_go_previous p s :
    nav_previous (nav_go p s) = if p === Auth then nav_current s else nav_previous s;
  nav_go_user_ref p s : nav_user_ref (nav_go p s) = nav_user_ref s;
  nav_set_user_ref_get u s : nav_user_ref (nav_set_user_ref u s) = u;
  nav_set_user_ref_current u s : nav_current (nav_set_user_ref u s) = nav_current s;
  nav_set_user_ref_previous u s : nav_previous (nav_set_user_ref u s) = nav_previous s
}.

(** Line 63. *)
Definition protectedPages : list Page := [Profile; Tracker].

(** The identity watcher (lines 54-69), run with the [currentUser] and
    [currentPage] of the render that scheduled it. *)
Definition watcher_effect {S} `{NavController S}
    (currentUser : option User) (currentPage : Page) (s : S) : S :=
  let s1 :=
    if negb (present (nav_user_ref s)) && present currentUser then
      (if currentPage === Auth then nav_go Home s else s)
    else if present (nav_user_ref s) && negb (present currentUser) then
      (if includes protectedPages currentPage then nav_go Home s else s)
    else s in
  nav_set_user_ref currentUser s1.

(** The component state implements the interface: [nav_go] is the
    [navigate] of the current render. *)
#[global] Instance AppState_nav : NavController AppState := {
  nav_current := currentPage;
  nav_previous := previousPage;
  nav_user_ref := prevUserRef;
  nav_set_user_ref := set_prevUserRef;
  nav_go p s := navigate (currentPage s) p s
}.

#[global] Instance AppState_nav_laws : NavControllerLaws AppState.
Proof.
  split; intros; simpl; unfold navigate; try done; by case_bool_decide.
Qed.

#[export] Hint Rewrite @nav_go_current @nav_go_user_ref @nav_set_user_ref_get
  @nav_set_user_ref_current @nav_set_user_ref_previous : dentibuddy_rw.

(** ** [navigate] *)

(** C3: [navigate] sets the current page to its argument, records the
    captured page as the previous page exactly when entering ["auth"],
    scrolls to the top, and leaves the other state alone. *)
Theorem navigate_spec captured page s :
  let s' := navigate captured page s in
  currentPage s' = page /\
  previousPage s' = (if page === Auth then captured else previousPage s) /\
  scroll s' = (0, 0)%Z /\
  isAppInitializing s' = isAppInitializing s /\ prevUserRef s' = prevUserRef s.
Proof. unfold navigate. by case_bool_decide. Qed.

(** What [navigate] does to the router state and the reference. *)
Lemma navigate_nav captured page s :
  currentPage (navigate captured page s) = page /\
  previousPage (navigate captured page s) = (if page === Auth then captured else previousPage s) /\
  prevUserRef (navigate captured page s) = prevUserRef s.
Proof. unfold navigate. by case_bool_decide. Qed.

(** A sequence of navigations, each through the callback of the render
    that precedes it. *)
Definition nav_seq {S} `{NavController S} (ps : list Page) (s : S) : S :=
  foldl (fun s p => nav_go p s) s ps.

Section navigation_sequences.
Context {S : Type} `{NavControllerLaws S}.

Lemma nav_seq_app ps1 ps2 s : nav_seq (ps1 ++ ps2) s = nav_seq ps2 (nav_seq ps1 s).
Proof. apply foldl_app. Qed.

Lemma nav_seq_previous_keep ps s :
  Auth ∉ ps -> nav_previous (nav_seq ps s) = nav_previous s.
Proof.
  revert s. induction ps as [|p ps IH]; intros s Hps; simpl; [done|].
  rewrite elem_of_cons in Hps.
  rewrite IH by tauto. rewrite nav_go_previous. case_bool_decide; [subst; tauto|done].
Qed.

(** C26: the page kept to go back to: navigations to pages other than
    ["auth"] never overwrite it, and after a sequence of navigations it
    is the page that was current when ["auth"] was last entered. *)
Theorem nav_seq_previous ps ps1 ps2 s :
  (Auth ∉ ps -> nav_previous (nav_seq ps s) = nav_previous s) /\
  (Auth ∉ ps2 ->
   nav_previous (nav_seq (ps1 ++ Auth :: ps2) s) = nav_current (nav_seq ps1 s)).
Proof.
  split; [apply nav_seq_previous_keep|].
  intros Hps2. rewrite nav_seq_app. simpl.
  rewrite nav_seq_previous_keep by done. rewrite nav_go_previous.
  by case_bool_decide.
Qed.
End navigation_sequences.

(** ** The identity watcher, against the interface *)

Section watcher.
Context {S : Type} `{NavControllerLaws S}.

Lemma watcher_user_ref u cp s : nav_user_ref (watcher_effect u cp s) = u.
Proof. unfold watcher_effect. by simpl_trace. Qed.

(** The watcher either only updates the reference, or navigates home
    once and updates it. *)
Lemma watcher_effect_cases u cp s :
  watcher_effect u cp s = nav_set_user_ref u s \/
  watcher_effect u cp s = nav_set_user_ref u (nav_go Home s).
Proof. unfold watcher_effect. split_ifs; auto. Qed.

Lemma watcher_previous u s :
  nav_previous (watcher_effect u (nav_current s) s) = nav_previous s.
Proof.
  destruct (watcher_effect_cases u (nav_current s) s) as [-> | ->];
    rewrite nav_set_user_ref_previous; [done|].
  rewrite nav_go_previous. by case_bool_decide.
Qed.

(** C1: on the log-in edge (no remembered user, a user now) while on
    ["auth"], the watcher navigates home. *)
Theorem watcher_login_auth u s :
  nav_user_ref s = None -> nav_current s = Auth ->
  nav_current (watcher_effect (Some u) (nav_current s) s) = Home.
Proof.
  intros Hr Hc. unfold watcher_effect. rewrite Hr, Hc. simpl. by simpl_trace.
Qed.

(** C2: on the log-out edge while on a protected page, the watcher
    navigates home. *)
Theorem watcher_logout_protected u s :
  nav_user_ref s = Some u -> nav_current s ∈ protectedPages ->
  nav_current (watcher_effect None (nav_current s) s) = Home.
Proof.
  intros Hr Hc. apply includes_spec in Hc. unfold watcher_effect.
  rewrite Hr, Hc. simpl. by simpl_trace.
Qed.

(** C5: on the log-out edge elsewhere, the page is unchanged. *)
Theorem watcher_logout_unprotected u s :
  nav_user_ref s = Some u -> nav_current s ∉ protectedPages ->
  nav_current (watcher_effect None (nav_current s) s) = nav_current s.
Proof.
  intros Hr Hc. rewrite <- includes_spec in Hc. apply not_true_is_false in Hc.
  unfold watcher_effect. rewrite Hr, Hc. simpl. by simpl_trace.
Qed.

(** C6: when the presence of a user does not change (both absent, or
    both present, even if a different user), the watcher does not
    navigate; it only remembers the new user. *)
Theorem watcher_no_edge u cp s :
  present (nav_user_ref s) = present u ->
  watcher_effect u cp s = nav_set_user_ref u s.
Proof.
  intros Hp. unfold watcher_effect. rewrite Hp.
  by destruct (present u).
Qed.

(** Without a change of presence the watcher keeps the page. *)
Lemma watcher_no_edge_page u cp s :
  present (nav_user_ref s) = present u ->
  nav_current (watcher_effect u cp s) = nav_current s.
Proof.
  intros Hp. unfold watcher_effect. rewrite Hp.
  destruct (present u); simpl; by rewrite nav_set_user_ref_current.
Qed.
End watcher.

Lemma watcher_no_edge_currentPage u cp (s : AppState) :
  present (prevUserRef s) = present u ->
  currentPage (watcher_effect u cp s) = currentPage s.
Proof. exact (watcher_no_edge_page u cp s). Qed.

(** ** Witnesses on concrete states *)

Definition demo_user : User := mkUser "u-1" "Thandi" "thandi@example.org" None.

Definition demo_state (p : Page) (u : option User) : AppState :=
  mkAppState p Home false u (0, 120)%Z.

Lemma nav_seq_previous_witness :
  nav_previous (nav_seq [Learn; Tracker; Chat] (demo_state Directory None)) =
    nav_previous (demo_state Directory None) /\
  nav_previous (nav_seq ([Learn; Auth; Chat] ++ Auth :: [Home]) (demo_state Directory None)) =
    nav_current (nav_seq [Learn; Auth; Chat] (demo_state Directory None)).
Proof.
  split;
    [apply (proj1 (nav_seq_previous [Learn; Tracker; Chat] [Learn; Auth; Chat] [Home]
                     (demo_state Directory None)))
    |apply (proj2 (nav_seq_previous [Learn; Tracker; Chat] [Learn; Auth; Chat] [Home]
                     (demo_state Directory None)))];
    apply not_includes_spec; reflexivity.
Defined.

Lemma watcher_login_auth_witness :
  nav_current (watcher_effect (Some demo_user) (nav_current (demo_state Auth None))
    (demo_state Auth None)) = Home.
Proof. apply (watcher_login_auth demo_user (demo_state Auth None)); reflexivity. Defined.

Lemma watcher_logout_protected_witness :
  nav_current (watcher_effect None (nav_current (demo_state Tracker (Some demo_user)))
    (demo_state Tracker (Some demo_user))) = Home.
Proof.
  apply (watcher_logout_protected demo_user (demo_state Tracker (Some demo_user)));
    [reflexivity|]. apply includes_spec. reflexivity.
Defined.

Lemma watcher_logout_unprotected_witness :
  nav_current (watcher_effect None (nav_current (demo_state Learn (Some demo_user)))
    (demo_state Learn (Some demo_user))) =
  nav_current (demo_state Learn (Some demo_user)).
Proof.
  apply (watcher_logout_unprotected demo_user (demo_state Learn (Some demo_user)));
    [reflexivity|]. apply not_includes_spec. reflexivity.
Defined.

Lemma watcher_no_edge_witness :
  watcher_effect (Some (mkUser "u-2" "Sipho" "sipho@example.org" None)) Auth
    (demo_state Auth (Some demo_user)) =
  nav_set_user_ref (Some (mkUser "u-2" "Sipho" "sipho@example.org" None))
    (demo_state Auth (Some demo_user)).
Proof. apply (watcher_no_edge (S := AppState)). reflexivity. Defined.
