(* ===== verification/Render.v ===== *)
(** The renderer of [AppContent] (src/App.tsx lines 71-106): [renderPage]
    as the [switch] over the run-time page string with its [default]
    branch, the callbacks each page receives (closures over the render's
    state), the events the rendered page can raise, and the readiness
    gate that shows the loading indicator. *)

From S2P Require Import Prelude Types Navigation.

(** The page components of src/pages (not under src/ here). *)
Inductive PageComponent : Type :=
  | HomePage
  | ChatPage
  | LearnPage
  | DirectoryPage
  | SymptomTrackerPage
  | CommunityPage
  | ProfilePage
  | AuthPage.

#[global] Instance PageComponent_eq_dec : EqDecision PageComponent.
Proof. solve_decision. Defined.

(** A rendered page with its callback props. [onNavigate={navigate}] is
    the render's [navigate], which captured its [currentPage];
    [onNavigateBack={() => navigate(previousPage)}] also captured
    [previousPage]. *)
Inductive View : Type :=
  | PageView (c : PageComponent) (nav_captured : Page)
  | AuthView (nav_captured : Page) (back_target : Page).

(** The [switch (currentPage)] of lines 72-91, on the run-time string. *)
Definition renderPage_switch (currentPage : string) (nav_captured previous : Page) : View :=
  if String.eqb currentPage "home" then PageView HomePage nav_captured
  else if String.eqb currentPage "chat" then PageView ChatPage nav_captured
  else if String.eqb currentPage "learn" then PageView LearnPage nav_captured
  else if String.eqb currentPage "directory" then PageView DirectoryPage nav_captured
  else if String.eqb currentPage "tracker" then PageView SymptomTrackerPage nav_captured
  else if String.eqb currentPage "community" then PageView CommunityPage nav_captured
  else if String.eqb currentPage "profile" then PageView ProfilePage nav_captured
  else if String.eqb currentPage "auth" then AuthView nav_captured previous
  else PageView HomePage nav_captured.

(** [renderPage()] (line 71) in a render of state [s]. *)
Definition renderPage (s : AppState) : View :=
  renderPage_switch (page_str (currentPage s)) (currentPage s) (previousPage s).

(** What [AppContent] returns (lines 94-106). *)
Inductive Element : Type :=
  | LoadingIndicator
  | Themed (v : View).

Definition appContent_render (isAuthLoading isTranslationsLoading : bool) (s : AppState)
    : Element :=
  if isAuthLoading || isAppInitializing s || isTranslationsLoading
  then LoadingIndicator
  else Themed (renderPage s).

(** The callbacks a page can invoke. *)
Inductive UiEvent : Type :=
  | OnNavigate (p : Page)
  | OnNavigateBack.

(** The state change a callback of the view performs, if the view has
    that callback. *)
Definition dispatch (v : View) (ev : UiEvent) : option (AppState -> AppState) :=
  match v, ev with
  | PageView _ captured, OnNavigate p => Some (navigate captured p)
  | AuthView captured target, OnNavigateBack => Some (navigate captured target)
  | _, _ => None
  end.

(** The component each page is rendered with. *)
Definition page_component (p : Page) : PageComponent :=
  match p with
  | Home => HomePage
  | Chat => ChatPage
  | Learn => LearnPage
  | Directory => DirectoryPage
  | Tracker => SymptomTrackerPage
  | Community => CommunityPage
  | Profile => ProfilePage
  | Auth => AuthPage
  end.


(** ** The rendered view *)

Lemma renderPage_eq s :
  renderPage s =
    if currentPage s === Auth then AuthView (currentPage s) (previousPage s)
    else PageView (page_component (currentPage s)) (currentPage s).
Proof. unfold renderPage. by destruct (currentPage s). Qed.

(** A run-time page string outside the union falls to the [default]
    branch. *)
Lemma renderPage_switch_unknown raw captured previous :
  page_of_string raw = None ->
  renderPage_switch raw captured previous = PageView HomePage captured.
Proof.
  intros Hn. unfold page_of_string in Hn.
  assert (Hall : forall p, String.eqb raw (page_str p) = false).
  { intros p. rewrite String.eqb_sym. apply (find_none _ _ Hn).
    destruct p; simpl; tauto. }
  unfold renderPage_switch.
  pose proof (Hall Home); pose proof (Hall Chat); pose proof (Hall Learn);
    pose proof (Hall Directory); pose proof (Hall Tracker); pose proof (Hall Community);
    pose proof (Hall Profile); pose proof (Hall Auth); simpl in *.
  repeat match goal with H : String.eqb raw _ = false |- _ => rewrite H; clear H end.
  done.
Qed.

(** C28: every page of the union renders its own component; only the
    auth page gets the back callback, bound to the previous page. The
    [default] branch is unreachable from a typed state, and a run-time
    string outside the union falls to it and renders the home page. *)
Theorem renderPage_exact s :
  renderPage s =
    (if currentPage s === Auth then AuthView (currentPage s) (previousPage s)
     else PageView (page_component (currentPage s)) (currentPage s)) /\
  (forall raw captured previous, page_of_string raw = None ->
     renderPage_switch raw captured previous = PageView HomePage captured).
Proof. split; [apply renderPage_eq|apply renderPage_switch_unknown]. Qed.

(** C16: the readiness gate: a page is rendered exactly when the identity
    provider, the start-up task and the translations have all finished
    loading, and it is then the page [renderPage] chooses. *)
Theorem appContent_render_gate isAuthLoading isTranslationsLoading s :
  (appContent_render isAuthLoading isTranslationsLoading s <> LoadingIndicator <->
   isAuthLoading = false /\ isAppInitializing s = false /\ isTranslationsLoading = false) /\
  (forall v, appContent_render isAuthLoading isTranslationsLoading s = Themed v ->
   v = renderPage s).
Proof.
  unfold appContent_render.
  destruct isAuthLoading, (isAppInitializing s), isTranslationsLoading;
    simpl; split; intros; try intuition congruence.
Qed.

(** C27: on the auth page, the back callback returns to the previous
    page and keeps it as the previous page. *)
Theorem auth_back_returns s :
  currentPage s = Auth ->
  exists f, dispatch (renderPage s) OnNavigateBack = Some f /\
    currentPage (f s) = previousPage s /\ previousPage (f s) = previousPage s.
Proof.
  intros Hc. rewrite renderPage_eq, Hc. simpl.
  eexists. split; [reflexivity|]. unfold navigate.
  case_bool_decide as Hp; simpl; [rewrite Hp|]; done.
Qed.

(** ** Witnesses *)

Lemma renderPage_exact_witness :
  renderPage_switch "settings" Learn Home = PageView HomePage Learn.
Proof. apply (proj2 (renderPage_exact (demo_state Home None))). reflexivity. Defined.

Lemma auth_back_returns_witness :
  exists f, dispatch (renderPage (demo_state Auth None)) OnNavigateBack = Some f /\
    currentPage (f (demo_state Auth None)) = previousPage (demo_state Auth None) /\
    previousPage (f (demo_state Auth None)) = previousPage (demo_state Auth None).
Proof. apply auth_back_returns. reflexivity. Defined.
