(* ===== verification/Runtime.v ===== *)
(** The React runtime of [AppContent] (src/App.tsx lines 18-107, and the
    provider composition of lines 110-118): the component's state together
    with the values its providers publish, the pending start-up task, the
    dependencies of the last watcher run, and the trace of what the
    outside world observed. [commit] re-renders and flushes the watcher
    effect until its dependencies are unchanged; [mount] is the first
    render with its two effects; [step] is one event of the event loop:
    a provider publishes a value, the awaited request settles, the user
    invokes a callback of the rendered page, or the user scrolls.
    [reachable] closes the mount under steps, and [App] is the mount
    under the two providers. The task's trace is related to the big-step
    run of [initializeApp] against the answers delivered. *)

From S2P Require Import Prelude Types Async Init Navigation Render.

(** What [useAuth()] returns (provider not under src/; spec section 6). *)
Record AuthCtx : Type := mkAuthCtx {
  ctx_currentUser : option User;
  ctx_isLoading : bool
}.

(** The start-up promise as the event loop holds it. *)
Inductive Task : Type :=
  | TaskPending (req : Request) (k : Settled JSValue -> Prog unit)
  | TaskSettled (r : Settled unit).

Record Sys : Type := mkSys {
  app : AppState;
  auth : AuthCtx;
  (** [useLanguage().isTranslationsLoading] *)
  translationsLoading : bool;
  (** [currentUser, currentPage] of the last watcher run; [navigate]'s
      identity, the third dependency, changes exactly with [currentPage] *)
  watcher_deps : option (option User * Page);
  task : Task;
  trace : list Event
}.

Definition set_app (a : AppState) (sys : Sys) : Sys :=
  mkSys a (auth sys) (translationsLoading sys) (watcher_deps sys) (task sys) (trace sys).

(** A synchronous effect of the task on the component state. *)
Definition apply_effect (s : AppState) (e : SyncEffect) : AppState :=
  match e with
  | SetIsAppInitializing b => set_isAppInitializing b s
  | ConsoleLog _ | ConsoleError _ _ => s
  end.

(** Run the task's program up to its next await: apply its effects,
    record them and the request it issues, and keep its continuation. *)
Definition run_task (p : Prog unit) (sys : Sys) : Sys :=
  let '(es, susp) := advance p in
  let a := foldl apply_effect (app sys) es in
  match susp with
  | Finished r =>
      mkSys a (auth sys) (translationsLoading sys) (watcher_deps sys)
        (TaskSettled r) (trace sys ++ map EvEffect es)
  | Blocked req k =>
      mkSys a (auth sys) (translationsLoading sys) (watcher_deps sys)
        (TaskPending req k) (trace sys ++ map EvEffect es ++ [EvRequest req])
  end.

(** The watcher's dependencies in the current render. *)
Definition deps_of (sys : Sys) : option User * Page :=
  (ctx_currentUser (auth sys), currentPage (app sys)).

(** No watcher run is due: the dependencies equal those of the last run. *)
Definition effects_settled (sys : Sys) : bool :=
  watcher_deps sys === Some (deps_of sys).

(** One run of the watcher effect, in the render of [sys]. *)
Definition run_watcher (sys : Sys) : Sys :=
  mkSys (watcher_effect (ctx_currentUser (auth sys)) (currentPage (app sys)) (app sys))
    (auth sys) (translationsLoading sys) (Some (deps_of sys)) (task sys) (trace sys).

(** Re-render and run the watcher while its dependencies changed. *)
Fixpoint flush_effects (fuel : nat) (sys : Sys) : Sys :=
  match fuel with
  | 0 => sys
  | S n => if effects_settled sys then sys else flush_effects n (run_watcher sys)
  end.

(** A state update followed by its re-render and effects. Fuel 2 suffices
    ([flush_effects_settled]). *)
Definition commit (sys : Sys) : Sys := flush_effects 2 sys.

(** The first render (lines 21-24) and its effects: [initializeApp()] runs
    up to its first await (lines 26-44), then the watcher runs. *)
Definition mount (ctx : AuthCtx) (translations : bool) (sc : Z * Z) : Sys :=
  commit (run_task initializeApp
    (mkSys (initial_state (ctx_currentUser ctx) sc) ctx translations None
       (TaskSettled (Fulfilled tt)) [])).

(** [App] (lines 110-118): [AppContent] mounted inside [AuthProvider]
    and [LanguageProvider], whose published values are the contexts its
    [useAuth()] and [useLanguage()] read. *)
Definition App (authValue : AuthCtx) (isTranslationsLoading : bool) (sc : Z * Z) : Sys :=
  mount authValue isTranslationsLoading sc.

(** What [AppContent] renders in state [sys]. *)
Definition rendered (sys : Sys) : Element :=
  appContent_render (ctx_isLoading (auth sys)) (translationsLoading sys) (app sys).

(** Events of the event loop. *)
Inductive SysEvent : Type :=
  | AuthChanged (ctx : AuthCtx)
  | TranslationsChanged (loading : bool)
  | TaskSettles (o : Settled JSValue)
  | Ui (ev : UiEvent)
  | UserScroll (pos : Z * Z).

Definition set_auth (ctx : AuthCtx) (sys : Sys) : Sys :=
  mkSys (app sys) ctx (translationsLoading sys) (watcher_deps sys) (task sys) (trace sys).

Definition set_translations (b : bool) (sys : Sys) : Sys :=
  mkSys (app sys) (auth sys) b (watcher_deps sys) (task sys) (trace sys).

Definition user_scroll (pos : Z * Z) (s : AppState) : AppState :=
  scrollTo pos.1 pos.2 s.

(** One event; [None] when it cannot happen in [sys]: no request is
    pending, or the rendered element has no such callback. *)
Definition step (ev : SysEvent) (sys : Sys) : option Sys :=
  match ev with
  | AuthChanged ctx => Some (commit (set_auth ctx sys))
  | TranslationsChanged b => Some (commit (set_translations b sys))
  | TaskSettles o =>
      match task sys with
      | TaskPending _ k => Some (commit (run_task (k o) sys))
      | TaskSettled _ => None
      end
  | Ui uev =>
      match rendered sys with
      | Themed v =>
          match dispatch v uev with
          | Some f => Some (commit (set_app (f (app sys)) sys))
          | None => None
          end
      | LoadingIndicator => None
      end
  | UserScroll pos => Some (set_app (user_scroll pos (app sys)) sys)
  end.

Inductive reachable : Sys -> Prop :=
  | reachable_mount ctx translations sc : reachable (mount ctx translations sc)
  | reachable_step sys ev sys' :
      reachable sys -> step ev sys = Some sys' -> reachable sys'.

(** Run a list of events, skipping those that cannot happen. *)
Definition run_events (evs : list SysEvent) (sys : Sys) : Sys :=
  foldl (fun sys ev => default sys (step ev sys)) sys evs.

(** ** The effect loop *)

(** The watcher only moves the page and remembers the user: the flag and
    the previous page are untouched. *)
Lemma watcher_effect_flag u s :
  isAppInitializing (watcher_effect u (currentPage s) s) = isAppInitializing s.
Proof. by destruct (watcher_effect_cases u (currentPage s) s) as [-> | ->]. Qed.

Lemma run_watcher_twice_settled sys : effects_settled (run_watcher (run_watcher sys)) = true.
Proof.
  unfold effects_settled. set (s1 := run_watcher sys).
  change (watcher_deps (run_watcher s1)) with (Some (deps_of s1)).
  apply bool_decide_eq_true. f_equal. unfold deps_of.
  change (app (run_watcher s1)) with
    (watcher_effect (ctx_currentUser (auth s1)) (currentPage (app s1)) (app s1)).
  change (auth (run_watcher s1)) with (auth s1).
  rewrite (watcher_no_edge_currentPage); [done|].
  unfold s1, run_watcher. cbn [app auth].
  exact (f_equal present (watcher_user_ref (S := AppState) _ (currentPage (app sys)) (app sys))).
Qed.

Lemma flush_settled_id n sys : effects_settled sys = true -> flush_effects n sys = sys.
Proof. intros H. destruct n; simpl; [done|]. by rewrite H. Qed.

Lemma commit_cases sys :
  commit sys = sys \/ commit sys = run_watcher sys \/
  commit sys = run_watcher (run_watcher sys).
Proof.
  unfold commit. simpl.
  destruct (effects_settled sys); [auto|].
  destruct (effects_settled (run_watcher sys)); auto.
Qed.

(** C8: the re-render/effect loop terminates: after at most two watcher
    runs the dependencies are unchanged, and more fuel gives the same
    state. *)
Theorem flush_effects_settled sys :
  effects_settled (commit sys) = true /\
  forall n, 2 <= n -> flush_effects n sys = commit sys.
Proof.
  split.
  - unfold commit. simpl.
    destruct (effects_settled sys) eqn:E1; [done|].
    destruct (effects_settled (run_watcher sys)) eqn:E2; [done|].
    apply run_watcher_twice_settled.
  - intros n Hn. do 2 (destruct n as [|n]; [lia|]). unfold commit. simpl.
    destruct (effects_settled sys); [done|].
    destruct (effects_settled (run_watcher sys)); [done|].
    by rewrite flush_settled_id by apply run_watcher_twice_settled.
Qed.

Lemma commit_settled sys : effects_settled (commit sys) = true.
Proof.
  unfold commit. simpl.
  destruct (effects_settled sys) eqn:E1; [done|].
  destruct (effects_settled (run_watcher sys)) eqn:E2; [done|].
  apply run_watcher_twice_settled.
Qed.

(** The reference holds the user of the last watcher run. *)
Definition ref_consistent (sys : Sys) : Prop :=
  forall u p, watcher_deps sys = Some (u, p) -> prevUserRef (app sys) = u.

Lemma run_watcher_ref_consistent sys : ref_consistent (run_watcher sys).
Proof.
  intros u p [= <- _].
  exact (watcher_user_ref (S := AppState) _ (currentPage (app sys)) (app sys)).
Qed.

Lemma commit_ref_consistent sys : ref_consistent sys -> ref_consistent (commit sys).
Proof.
  intros Hr. destruct (commit_cases sys) as [-> | [-> | ->]];
    auto using run_watcher_ref_consistent.
Qed.

(** Two states that agree on everything but the page, the reference,
    the scroll position and the watcher's dependencies. *)
Definition frame_eq (a b : Sys) : Prop :=
  auth a = auth b /\ translationsLoading a = translationsLoading b /\
  task a = task b /\ trace a = trace b /\
  isAppInitializing (app a) = isAppInitializing (app b) /\
  previousPage (app a) = previousPage (app b).

Lemma frame_eq_refl a : frame_eq a a.
Proof. by repeat split. Qed.

Lemma frame_eq_trans a b c : frame_eq a b -> frame_eq b c -> frame_eq a c.
Proof. unfold frame_eq. intuition congruence. Qed.

Lemma run_watcher_frame sys : frame_eq (run_watcher sys) sys.
Proof.
  repeat split.
  - exact (watcher_effect_flag _ (app sys)).
  - exact (watcher_previous (S := AppState) _ (app sys)).
Qed.

(** What a commit leaves alone. *)
Lemma commit_frame sys : frame_eq (commit sys) sys.
Proof.
  destruct (commit_cases sys) as [-> | [-> | ->]];
    eauto using frame_eq_refl, frame_eq_trans, run_watcher_frame.
Qed.

(** In a settled, consistent state the reference is the current user. *)
Lemma settled_ref sys :
  effects_settled sys = true -> ref_consistent sys ->
  prevUserRef (app sys) = ctx_currentUser (auth sys).
Proof.
  unfold effects_settled. intros Hs Hr. apply bool_decide_eq_true in Hs.
  by apply (Hr _ (currentPage (app sys))).
Qed.

(** ** Effects of the task on the component *)

Lemma foldl_apply_effect_inert s es :
  Forall (fun e => is_set_init e = false) es -> foldl apply_effect s es = s.
Proof.
  revert s. induction es as [|e es IH]; intros s Hf; simpl; [done|].
  inversion Hf as [|? ? He Hf']; subst.
  replace (apply_effect s e) with s by (by destruct e). by apply IH.
Qed.

Lemma foldl_apply_effect_clear s es0 :
  Forall (fun e => is_set_init e = false) es0 ->
  foldl apply_effect s (es0 ++ [SetIsAppInitializing false]) = set_isAppInitializing false s.
Proof. intros Hf. rewrite foldl_app. simpl. by rewrite foldl_apply_effect_inert. Qed.

Lemma foldl_apply_effect_nav s es :
  let s' := foldl apply_effect s es in
  currentPage s' = currentPage s /\ previousPage s' = previousPage s /\
  prevUserRef s' = prevUserRef s.
Proof.
  revert s. induction es as [|e es IH]; intros s; simpl; [done|].
  destruct (IH (apply_effect s e)) as (-> & -> & ->). by destruct e.
Qed.

Lemma count_generate_effects es : count_where is_generate (map EvEffect es) = 0.
Proof. by induction es. Qed.

(** ** The invariant of reachable states *)

(** While the start-up task is pending, the flag is set, its continuation
    clears the flag last, at most two more awaits remain, and the
    generations issued plus those it may still issue are at most one.
    Once it settled, the flag is cleared. *)
Definition task_inv (sys : Sys) : Prop :=
  match task sys with
  | TaskPending _ k =>
      isAppInitializing (app sys) = true /\
      (forall o, clears_last (k o)) /\
      (exists n, n <= 2 /\ forall o, awaits_le n (k o)) /\
      (exists m, count_where is_generate (trace sys) + m <= 1 /\
                 forall o, req_le is_generate_req m (k o))
  | TaskSettled _ =>
      isAppInitializing (app sys) = false /\ count_where is_generate (trace sys) <= 1
  end.

Definition sys_inv (sys : Sys) : Prop :=
  effects_settled sys = true /\ ref_consistent sys /\
  previousPage (app sys) <> Auth /\ task_inv sys.

Lemma task_inv_frame a b : frame_eq a b -> task_inv b -> task_inv a.
Proof.
  intros (_ & _ & Ht & Htr & Hf & _). unfold task_inv.
  rewrite Ht, Htr, Hf. done.
Qed.

Lemma commit_inv sys :
  ref_consistent sys -> previousPage (app sys) <> Auth -> task_inv sys ->
  sys_inv (commit sys).
Proof.
  intros Hr Hp Ht. pose proof (commit_frame sys) as Hfr.
  split; [apply commit_settled|].
  split; [by apply commit_ref_consistent|].
  split; [destruct Hfr as (_ & _ & _ & _ & _ & ->); done|].
  by apply (task_inv_frame _ sys).
Qed.

(** Running the task up to its next await keeps the task invariant. *)
Lemma run_task_inv p n m sys :
  isAppInitializing (app sys) = true -> clears_last p ->
  awaits_le n p -> n <= 3 ->
  req_le is_generate_req m p -> count_where is_generate (trace sys) + m <= 1 ->
  task_inv (run_task p sys).
Proof.
  intros Hflag Hc Ha Hn Hg Hcount. unfold run_task.
  destruct (advance p) as [es susp] eqn:E.
  pose proof (advance_clears_last p es susp Hc E) as Hcl.
  destruct susp as [r|req k]; unfold task_inv; simpl.
  - destruct Hcl as (es0 & -> & Hf). rewrite foldl_apply_effect_clear by done.
    split; [done|]. simpl_trace. rewrite count_generate_effects. lia.
  - destruct Hcl as [Hf Hk]. rewrite foldl_apply_effect_inert by done.
    split; [done|]. split; [done|].
    destruct (advance_blocked_req_le _ n p es req k Ha E) as (n' & Hn' & Hk').
    split; [exists n'; split; [simpl in Hn'; lia|done]|].
    destruct (advance_blocked_req_le _ m p es req k Hg E) as (m' & Hm' & Hkm).
    exists m'. split; [|done]. simpl_trace.
    rewrite count_generate_effects. destruct req; simpl in *; lia.
Qed.

Lemma run_task_nav p sys :
  let sys' := run_task p sys in
  watcher_deps sys' = watcher_deps sys /\ auth sys' = auth sys /\
  currentPage (app sys') = currentPage (app sys) /\
  previousPage (app sys') = previousPage (app sys) /\
  prevUserRef (app sys') = prevUserRef (app sys).
Proof.
  unfold run_task. destruct (advance p) as [es [r|req k]]; simpl;
    destruct (foldl_apply_effect_nav (app sys) es) as (? & ? & ?); done.
Qed.

Lemma ref_consistent_transfer a b :
  watcher_deps a = watcher_deps b -> prevUserRef (app a) = prevUserRef (app b) ->
  ref_consistent b -> ref_consistent a.
Proof. intros Hd Hu Hr u p Hdeps. rewrite Hu. apply (Hr u p). by rewrite <- Hd. Qed.

(** A callback of the rendered page keeps the previous page away from
    ["auth"], and leaves the reference and the flag alone. *)
Lemma dispatch_render_frame s uev f :
  previousPage s <> Auth -> dispatch (renderPage s) uev = Some f ->
  previousPage (f s) <> Auth /\ prevUserRef (f s) = prevUserRef s /\
  isAppInitializing (f s) = isAppInitializing s.
Proof.
  intros Hp Hd. rewrite renderPage_eq in Hd.
  case_bool_decide as Hc; destruct uev as [p|]; simpl in Hd; simplify_eq;
    unfold navigate; repeat case_bool_decide; simplify_eq; simpl; auto.
Qed.

Lemma rendered_themed sys v :
  rendered sys = Themed v ->
  v = renderPage (app sys) /\ ctx_isLoading (auth sys) = false /\
  isAppInitializing (app sys) = false /\ translationsLoading sys = false.
Proof.
  unfold rendered, appContent_render.
  destruct (ctx_isLoading (auth sys)), (isAppInitializing (app sys)),
    (translationsLoading sys); simpl; intros; simplify_eq; auto.
Qed.

Lemma mount_inv ctx translations sc : sys_inv (mount ctx translations sc).
Proof.
  unfold mount. set (sys0 := mkSys _ _ _ _ _ _).
  destruct (run_task_nav initializeApp sys0) as (Hd & _ & _ & Hp & Hu).
  apply commit_inv.
  - eapply ref_consistent_transfer; [done|done|]. by intros u p Hn.
  - by rewrite Hp.
  - apply (run_task_inv _ 3 1); auto using initializeApp_clears_last,
      initializeApp_awaits_le, initializeApp_generate_le.
Qed.

Lemma step_inv sys ev sys' : sys_inv sys -> step ev sys = Some sys' -> sys_inv sys'.
Proof.
  intros (Hs & Hr & Hp & Ht) Hstep.
  destruct ev as [ctx|b|o|uev|pos]; simpl in Hstep.
  - injection Hstep as <-. by apply commit_inv.
  - injection Hstep as <-. by apply commit_inv.
  - unfold task_inv in Ht. destruct (task sys) as [req k|r] eqn:Etask; [|done].
    injection Hstep as <-.
    destruct (run_task_nav (k o) sys) as (Hd & _ & _ & Hp' & Hu).
    destruct Ht as (Hf & Hc & (n & Hn & Ha) & (m & Hm & Hg)).
    apply commit_inv.
    + by eapply ref_consistent_transfer.
    + by rewrite Hp'.
    + apply (run_task_inv _ n m); auto; lia.
  - destruct (rendered sys) as [|v] eqn:Er; [done|].
    destruct (dispatch v uev) as [f|] eqn:Ed; [|done]. injection Hstep as <-.
    destruct (rendered_themed sys v Er) as (-> & _).
    destruct (dispatch_render_frame (app sys) uev f Hp Ed) as (Hp' & Hu & Hf).
    apply commit_inv; [apply (ref_consistent_transfer _ sys); [reflexivity|exact Hu|exact Hr]|exact Hp'|].
    unfold task_inv in *. simpl. by rewrite Hf.
  - injection Hstep as <-. done.
Qed.

Lemma reachable_inv sys : reachable sys -> sys_inv sys.
Proof.
  induction 1 as [ctx translations sc|sys ev sys' _ IH Hstep].
  - apply mount_inv.
  - by eapply step_inv.
Qed.

Lemma reachable_run_events evs sys : reachable sys -> reachable (run_events evs sys).
Proof.
  revert sys. induction evs as [|ev evs IH]; intros sys Hr; simpl; [done|].
  apply IH. destruct (step ev sys) as [sys'|] eqn:E; simpl; [|done].
  by eapply reachable_step.
Qed.

Definition is_settle (ev : SysEvent) : bool :=
  match ev with TaskSettles _ => true | _ => false end.

Lemma run_task_task p sys :
  task (run_task p sys) =
    match (advance p).2 with
    | Finished r => TaskSettled r
    | Blocked req k => TaskPending req k
    end.
Proof. unfold run_task. by destruct (advance p) as [es [r|req k]]. Qed.

Lemma commit_task sys : task (commit sys) = task sys.
Proof. by destruct (commit_frame sys) as (_ & _ & -> & _). Qed.

Lemma commit_auth sys : auth (commit sys) = auth sys.
Proof. by destruct (commit_frame sys) as (-> & _). Qed.

Lemma commit_trace sys : trace (commit sys) = trace sys.
Proof. by destruct (commit_frame sys) as (_ & _ & _ & -> & _). Qed.

(** Events other than a settlement leave the task and the trace alone. *)
Lemma step_other_frame ev sys sys' :
  is_settle ev = false -> step ev sys = Some sys' ->
  task sys' = task sys /\ trace sys' = trace sys.
Proof.
  intros Hev Hstep. destruct ev as [ctx|b|o|uev|pos]; simpl in *; try done.
  - injection Hstep as <-. by rewrite commit_task, commit_trace.
  - injection Hstep as <-. by rewrite commit_task, commit_trace.
  - destruct (rendered sys); [done|]. destruct (dispatch v uev); [|done].
    injection Hstep as <-. by rewrite commit_task, commit_trace.
  - by injection Hstep as <-.
Qed.

Lemma step_task_other ev sys sys' :
  is_settle ev = false -> step ev sys = Some sys' -> task sys' = task sys.
Proof. intros Hev Hstep. by destruct (step_other_frame ev sys sys' Hev Hstep). Qed.

Lemma step_settled ev sys sys' r :
  task sys = TaskSettled r -> step ev sys = Some sys' -> task sys' = TaskSettled r.
Proof.
  intros Ht Hstep. destruct (is_settle ev) eqn:E.
  - destruct ev; try done. simpl in Hstep. by rewrite Ht in Hstep.
  - rewrite <- Ht. by eapply step_task_other.
Qed.

Lemma run_events_inv evs sys : sys_inv sys -> sys_inv (run_events evs sys).
Proof.
  revert sys. induction evs as [|ev evs IH]; intros sys Hi; simpl; [done|].
  apply IH. destruct (step ev sys) eqn:E; simpl; [|done]. by eapply step_inv.
Qed.

(** Once the task has settled, the flag stays cleared. *)
Lemma settled_stays_cleared evs sys r :
  sys_inv sys -> task sys = TaskSettled r ->
  isAppInitializing (app (run_events evs sys)) = false.
Proof.
  revert sys. induction evs as [|ev evs IH]; intros sys Hi Ht; simpl.
  - destruct Hi as (_ & _ & _ & Hti). unfold task_inv in Hti. rewrite Ht in Hti. tauto.
  - destruct (step ev sys) as [sys'|] eqn:E; simpl; [|by apply IH].
    apply IH; [by eapply step_inv|]. by eapply step_settled.
Qed.

Lemma startup_completes_aux evs : forall n sys,
  sys_inv sys ->
  (forall req k, task sys = TaskPending req k -> forall o, awaits_le n (k o)) ->
  n < count_where is_settle evs ->
  isAppInitializing (app (run_events evs sys)) = false.
Proof.
  induction evs as [|ev evs IH]; intros n sys Hi Hb Hn; simpl in *; [lia|].
  destruct (step ev sys) as [sys'|] eqn:E; simpl.
  - assert (Hi' : sys_inv sys') by (by eapply step_inv).
    destruct (is_settle ev) eqn:Es.
    + destruct ev as [| |o| |]; try done. simpl in E.
      destruct (task sys) as [req k|r] eqn:Ht; [|done]. injection E as <-.
      pose proof (commit_frame (run_task (k o) sys)) as (_ & _ & Htask & _).
      rewrite run_task_task in Htask.
      destruct (advance (k o)) as [es [r|req' k']] eqn:Ea; simpl in Htask.
      * by eapply settled_stays_cleared.
      * destruct (advance_blocked_req_le _ n (k o) es req' k' (Hb req k eq_refl o) Ea)
          as (n' & Hn' & Hk').
        apply (IH n'); [done| |simpl in Hn'; lia].
        intros req'' k'' Hp. rewrite Htask in Hp. by injection Hp as <- <-.
    + apply (IH n); [done| |lia].
      intros req k Hp. apply (Hb req k). rewrite <- Hp. symmetry.
      by eapply step_task_other.
  - destruct (is_settle ev) eqn:Es.
    + destruct ev as [| |o| |]; try done. simpl in E.
      destruct (task sys) as [req k|r] eqn:Ht; [done|].
      by eapply settled_stays_cleared.
    + apply (IH n); [done|done|lia].
Qed.

(** ** The runtime replays the start-up program

    Only the task writes the trace. Between events the runtime holds the
    task as a [Suspension]; each settlement resumes it with its answer. *)

(** The answers the events deliver, in order. *)
Definition settle_answers (evs : list SysEvent) : list (Settled JSValue) :=
  omap (fun ev => match ev with TaskSettles o => Some o | _ => None end) evs.

Definition task_susp (t : Task) : Suspension unit :=
  match t with
  | TaskPending req k => Blocked req k
  | TaskSettled r => Finished r
  end.

Lemma run_task_trace p sys :
  trace (run_task p sys) = trace sys ++ (advance_trace p).1 /\
  task_susp (task (run_task p sys)) = (advance_trace p).2.
Proof.
  unfold run_task, advance_trace.
  destruct (advance p) as [es [r|req k]]; simpl; by rewrite ?app_nil_r.
Qed.

(** After mounting, the trace is the start of [initializeApp] up to its
    first await, where its task is suspended. *)
Lemma mount_advance ctx translations sc :
  trace (mount ctx translations sc) = (advance_trace initializeApp).1 /\
  task_susp (task (mount ctx translations sc)) = (advance_trace initializeApp).2.
Proof.
  unfold mount. rewrite commit_trace, commit_task.
  by destruct (run_task_trace initializeApp
    (mkSys (initial_state (ctx_currentUser ctx) sc) ctx translations None
       (TaskSettled (Fulfilled tt)) [])) as [-> ->].
Qed.

Lemma settle_answers_other ev evs :
  is_settle ev = false -> settle_answers (ev :: evs) = settle_answers evs.
Proof. by destruct ev. Qed.

Lemma run_events_cons ev evs sys :
  run_events (ev :: evs) sys = run_events evs (default sys (step ev sys)).
Proof. done. Qed.

Lemma run_events_resume evs sys :
  let res := resume (task_susp (task sys)) (settle_answers evs) in
  trace (run_events evs sys) = trace sys ++ res.1 /\
  task_susp (task (run_events evs sys)) = res.2.
Proof.
  revert sys. induction evs as [|ev evs IH]; intros sys.
  { simpl. destruct (task sys); simpl; by rewrite ?app_nil_r. }
  rewrite run_events_cons. destruct (is_settle ev) eqn:Es.
  - destruct ev as [| |o| |]; try done. simpl.
    destruct (task sys) as [req k|r] eqn:Ht; simpl.
    + destruct (IH (commit (run_task (k o) sys))) as [IHtr IHts].
      rewrite IHtr, IHts, commit_trace, commit_task.
      destruct (run_task_trace (k o) sys) as [-> ->].
      destruct (advance_trace (k o)) as [t1 s1]; simpl.
      destruct (resume s1 (settle_answers evs)) as [t2 s2]; simpl.
      by rewrite app_assoc.
    + destruct (IH sys) as [IHtr IHts]. rewrite Ht in IHtr, IHts.
      rewrite IHtr, IHts. cbn [task_susp]. rewrite resume_finished. simpl. by rewrite app_nil_r.
  - rewrite settle_answers_other by done.
    destruct (step ev sys) as [sys'|] eqn:E; simpl; [|apply IH].
    destruct (step_other_frame ev sys sys' Es E) as [Ht Htr].
    rewrite <- Ht, <- Htr. apply IH.
Qed.

(** From the mount, the runtime's trace and task are those of feeding
    [initializeApp] the answers the events delivered. *)
Lemma mount_run_events_feed ctx translations sc evs :
  let sys := run_events evs (mount ctx translations sc) in
  trace sys = (feed initializeApp (settle_answers evs)).1 /\
  task_susp (task sys) = (feed initializeApp (settle_answers evs)).2.
Proof.
  unfold mount. set (sys0 := mkSys _ _ _ _ _ _).
  destruct (run_events_resume evs (commit (run_task initializeApp sys0))) as [Htr Hts].
  rewrite Htr, Hts, commit_trace, commit_task.
  destruct (run_task_trace initializeApp sys0) as [-> ->].
  unfold feed. destruct (advance_trace initializeApp) as [t1 s1]; simpl.
  by destruct (resume s1 (settle_answers evs)).
Qed.

(** Once the task has settled, the runtime's trace is the whole big-step
    run against the answers delivered. *)
Lemma mount_run_events_settled ctx translations sc evs r :
  task (run_events evs (mount ctx translations sc)) = TaskSettled r ->
  exists rest, run replay initializeApp (settle_answers evs) =
    (r, rest, trace (run_events evs (mount ctx translations sc))).
Proof.
  intros Hr. destruct (mount_run_events_feed ctx translations sc evs) as [Htr Hts].
  rewrite Htr. apply (replay_feed initializeApp (settle_answers evs)).
  by rewrite <- Hts, Hr.
Qed.

(** Every reachable state is the mount followed by a list of events. *)
Lemma reachable_from_mount sys :
  reachable sys -> exists ctx translations sc evs,
    sys = run_events evs (mount ctx translations sc).
Proof.
  induction 1 as [ctx translations sc|sys ev sys' _ (ctx & tr & sc & evs & ->) Hstep].
  - by exists ctx, translations, sc, [].
  - exists ctx, tr, sc, (evs ++ [ev]). unfold run_events. rewrite foldl_app. simpl.
    fold (run_events evs (mount ctx tr sc)). by rewrite Hstep.
Qed.

(** Mounting blocks [initializeApp] on its first read with the flag set. *)
Lemma mount_initializing ctx translations sc :
  isAppInitializing (app (mount ctx translations sc)) = true.
Proof.
  unfold mount. by destruct (commit_frame (run_task initializeApp
    (mkSys (initial_state (ctx_currentUser ctx) sc) ctx translations None
       (TaskSettled (Fulfilled tt)) []))) as (_ & _ & _ & _ & -> & _).
Qed.

(** ** Properties of every reachable state *)

(** C11: the page remembered for the back callback is never ["auth"], so
    leaving the auth page never leads back to it. *)
Theorem reachable_previous_not_auth sys :
  reachable sys -> previousPage (app sys) <> Auth.
Proof. intros Hr. apply (reachable_inv sys Hr). Qed.

(** C12: between events the watcher's dependencies are up to date and the
    remembered user ([prevUserRef]) is the provider's current user, so an
    identity change is always compared with the previous provider value. *)
Theorem reachable_ref_tracks_user sys :
  reachable sys ->
  effects_settled sys = true /\ prevUserRef (app sys) = ctx_currentUser (auth sys).
Proof.
  intros Hr. destruct (reachable_inv sys Hr) as (Hs & Hc & _).
  split; [done|]. by apply settled_ref.
Qed.

(** C15: over any interleaving of events, the image generator is called
    at most once per mount. *)
Theorem reachable_generate_at_most_once sys :
  reachable sys -> count_where is_generate (trace sys) <= 1.
Proof.
  intros Hr. destruct (reachable_inv sys Hr) as (_ & _ & _ & Ht).
  unfold task_inv in Ht. destruct (task sys); [|tauto].
  destruct Ht as (_ & _ & _ & m & Hm & _). lia.
Qed.

(** C13: the app is initialising exactly while the start-up task awaits a
    request: the flag is never cleared early and never stays set after
    the task settled. *)
Theorem reachable_initializing_iff_pending sys :
  reachable sys ->
  isAppInitializing (app sys) = true <-> exists req k, task sys = TaskPending req k.
Proof.
  intros Hr. destruct (reachable_inv sys Hr) as (_ & _ & _ & Ht).
  unfold task_inv in Ht. destruct (task sys) as [req k|r].
  - split; [eauto|tauto].
  - destruct Ht as [Hf _]. split; [congruence|intros (? & ? & ?); done].
Qed.

(** C14: start-up completes: from any reachable state, whatever else
    happens in between, once the awaited requests have settled three
    times (with any answers) the app is no longer initialising. *)
Theorem startup_completes sys evs :
  reachable sys -> 3 <= count_where is_settle evs ->
  isAppInitializing (app (run_events evs sys)) = false.
Proof.
  intros Hr Hc. pose proof (reachable_inv sys Hr) as Hi.
  pose proof Hi as (_ & _ & _ & Ht).
  apply (startup_completes_aux evs 2); [done| |lia].
  intros req k Hk. unfold task_inv in Ht. rewrite Hk in Ht.
  destruct Ht as (_ & _ & (n & Hn & Ha) & _). intros o.
  apply (req_le_mono _ n); [apply Ha|lia].
Qed.

(** C34: once start-up has settled in the runtime, its promise was
    fulfilled, the observed trace is the spec's description of start-up
    for the answers the collaborators gave, and the last thing observed
    is the clearing of the initialising flag. *)
Theorem runtime_startup_trace ctx translations sc evs r :
  task (run_events evs (mount ctx translations sc)) = TaskSettled r ->
  r = Fulfilled tt /\
  trace (run_events evs (mount ctx translations sc)) =
    (initializeApp_spec replay (settle_answers evs)).2 /\
  list.last (trace (run_events evs (mount ctx translations sc))) = Some ev_done.
Proof.
  intros Hr. destruct (mount_run_events_settled ctx translations sc evs r Hr) as [rest Hrun].
  rewrite initializeApp_run_eq in Hrun.
  pose proof (initializeApp_spec_outcome replay (settle_answers evs)) as Hout.
  rewrite Hrun in Hout. destruct Hout as (-> & Hlast & _).
  by rewrite Hrun.
Qed.

(** C35: bounded output: in every reachable state the runtime has
    observed at most six effects and requests (read, log, generate, write,
    error log, flag), however many events occurred. *)
Theorem reachable_trace_bounded sys : reachable sys -> List.length (trace sys) <= 6.
Proof.
  intros Hr. destruct (reachable_from_mount sys Hr) as (ctx & tr & sc & evs & ->).
  destruct (mount_run_events_feed ctx tr sc evs) as [Htr _].
  destruct (replay_feed initializeApp (settle_answers evs)) as [[t' Hp] _].
  rewrite initializeApp_run_eq, <- Htr in Hp.
  pose proof (initializeApp_spec_length replay (settle_answers evs)) as Hl.
  rewrite Hp, length_app in Hl. lia.
Qed.

(** ** Witnesses on a concrete run *)

Definition demo_mount : Sys := mount (mkAuthCtx None false) false (0, 0)%Z.

(** The avatar is found, then the user opens the auth page. *)
Definition demo_events : list SysEvent :=
  [TaskSettles (Fulfilled (JStr "blob:avatar")); Ui (OnNavigate Auth)].

Definition demo_run : Sys := run_events demo_events demo_mount.

Lemma reachable_previous_not_auth_witness : previousPage (app demo_run) <> Auth.
Proof. apply reachable_previous_not_auth. apply reachable_run_events, reachable_mount. Defined.

Lemma reachable_ref_tracks_user_witness :
  effects_settled demo_run = true /\
  prevUserRef (app demo_run) = ctx_currentUser (auth demo_run).
Proof. apply reachable_ref_tracks_user. apply reachable_run_events, reachable_mount. Defined.

Lemma reachable_generate_at_most_once_witness :
  count_where is_generate (trace demo_run) <= 1.
Proof. apply reachable_generate_at_most_once. apply reachable_run_events, reachable_mount. Defined.

Lemma reachable_initializing_iff_pending_witness :
  isAppInitializing (app demo_mount) = true <->
  exists req k, task demo_mount = TaskPending req k.
Proof. apply reachable_initializing_iff_pending. apply reachable_mount. Defined.

Lemma startup_completes_witness :
  isAppInitializing (app (run_events
    [TaskSettles (Fulfilled JUndefined); AuthChanged (mkAuthCtx (Some demo_user) false);
     TaskSettles (Fulfilled (JStr "blob:avatar")); TaskSettles (Rejected "offline")]
    demo_mount)) = false.
Proof. apply startup_completes; [apply reachable_mount|simpl; lia]. Defined.

(** C33: the spec calls ["profile"] and ["tracker"] pages that require a
    signed-in user, but [AppContent] only redirects away from them on
    the log-out edge: a signed-out user reaches the profile page by a
    plain navigation. *)
Theorem protected_page_while_signed_out :
  exists sys, reachable sys /\ ctx_currentUser (auth sys) = None /\
    currentPage (app sys) = Profile.
Proof.
  exists (run_events [TaskSettles (Fulfilled (JStr "blob:avatar")); Ui (OnNavigate Profile)]
    demo_mount).
  split; [apply reachable_run_events, reachable_mount|].
  vm_compute. auto.
Qed.

Lemma runtime_startup_trace_witness :
  task (run_events demo_events demo_mount) = TaskSettled (Fulfilled tt) /\
  (Fulfilled tt = Fulfilled tt /\
   trace (run_events demo_events (mount (mkAuthCtx None false) false (0, 0)%Z)) =
     (initializeApp_spec replay (settle_answers demo_events)).2 /\
   list.last (trace (run_events demo_events (mount (mkAuthCtx None false) false (0, 0)%Z))) =
     Some ev_done).
Proof.
  split; [reflexivity|].
  apply (runtime_startup_trace (mkAuthCtx None false) false (0, 0)%Z demo_events).
  reflexivity.
Defined.

Lemma reachable_trace_bounded_witness : List.length (trace demo_run) <= 6.
Proof. apply reachable_trace_bounded. apply reachable_run_events, reachable_mount. Defined.

