(* ===== verification/Refinement.v ===== *)
(** The controller as the spec describes it (sections 4.1 and 9): an
    abstract machine over the page, the page to go back to and whether a
    user is signed in, where an identity change fires the redirect table
    and a navigation records the page left for ["auth"]. The React runtime
    of [Runtime] refines it: through the abstraction [abs_view], every
    step of the runtime is the abstract transition of its event, whatever
    the refs, effect dependencies and closures do underneath. The file
    also states the initial state of the mount. *)

From S2P Require Import Prelude Types Async Init Navigation Render Runtime.

Module SessionSpec.

Record AbsState : Type := mkAbs {
  a_page : Page;
  a_prev : Page;
  a_signed_in : bool
}.

(** [navigate(page)] as spec section 4.1 states it. *)
Definition a_navigate (p : Page) (a : AbsState) : AbsState :=
  mkAbs p (if p === Auth then a_page a else a_prev a) (a_signed_in a).

(** The identity transition table of spec sections 4.1 and 9: at most
    one redirect per transition of the two-state machine. *)
Definition a_identity (now : bool) (a : AbsState) : AbsState :=
  let page :=
    match a_signed_in a, now with
    | false, true => if a_page a === Auth then Home else a_page a
    | true, false => if includes protectedPages (a_page a) then Home else a_page a
    | _, _ => a_page a
    end in
  mkAbs page (a_prev a) now.

Definition a_init (signed_in : bool) : AbsState := mkAbs Home Home signed_in.

End SessionSpec.

Import SessionSpec.

(** What the spec sees of a runtime state. *)
Definition abs_view (sys : Sys) : AbsState :=
  mkAbs (currentPage (app sys)) (previousPage (app sys))
    (present (ctx_currentUser (auth sys))).

(** The abstract transition of each event. *)
Definition abs_event (ev : SysEvent) (a : AbsState) : AbsState :=
  match ev with
  | AuthChanged ctx => a_identity (present (ctx_currentUser ctx)) a
  | Ui (OnNavigate p) => a_navigate p a
  | Ui OnNavigateBack => a_navigate (a_prev a) a
  | TranslationsChanged _ | TaskSettles _ | UserScroll _ => a
  end.

(** ** The page after a commit *)

(** The page after the effects have run is the page the first watcher
    run chooses: a second run, if any, finds no edge. *)
Lemma commit_page sys :
  ref_consistent sys ->
  currentPage (app (commit sys)) =
    currentPage (watcher_effect (ctx_currentUser (auth sys)) (currentPage (app sys)) (app sys)).
Proof.
  intros Hr. unfold commit. cbn [flush_effects].
  destruct (effects_settled sys) eqn:E1.
  - rewrite (watcher_no_edge_currentPage); [done|].
    simpl. by rewrite (settled_ref sys).
  - destruct (effects_settled (run_watcher sys)) eqn:E2; [done|].
    change (app (run_watcher (run_watcher sys))) with
      (watcher_effect (ctx_currentUser (auth sys))
         (currentPage (app (run_watcher sys))) (app (run_watcher sys))).
    rewrite (watcher_no_edge_currentPage); [done|].
    exact (f_equal present (watcher_user_ref (S := AppState) _ (currentPage (app sys)) (app sys))).
Qed.

(** When the remembered user is the current one, a commit keeps the page. *)
Lemma commit_page_no_edge sys :
  ref_consistent sys -> prevUserRef (app sys) = ctx_currentUser (auth sys) ->
  currentPage (app (commit sys)) = currentPage (app sys).
Proof.
  intros Hr Hu. rewrite commit_page by done.
  rewrite (watcher_no_edge_currentPage); [done|]. simpl. by rewrite Hu.
Qed.

Lemma commit_previous sys : previousPage (app (commit sys)) = previousPage (app sys).
Proof. by destruct (commit_frame sys) as (_ & _ & _ & _ & _ & ->). Qed.

(** The watcher computes the spec's table, reading the presence of the
    previous user from the reference. *)
Lemma watcher_effect_table u s :
  currentPage (watcher_effect u (currentPage s) s) =
    a_page (a_identity (present u)
      (mkAbs (currentPage s) (previousPage s) (present (prevUserRef s)))).
Proof.
  unfold watcher_effect, a_identity. simpl.
  destruct (prevUserRef s), u; simpl; try done;
    repeat case_bool_decide; try case_match; done.
Qed.

(** ** Refinement *)

(** A navigation through a callback of the current render, and its
    re-render, is the spec's [navigate]. *)
Lemma step_navigate_refines sys p :
  ref_consistent sys -> prevUserRef (app sys) = ctx_currentUser (auth sys) ->
  abs_view (commit (set_app (navigate (currentPage (app sys)) p (app sys)) sys)) =
  a_navigate p (abs_view sys).
Proof.
  intros Hc Hu.
  destruct (navigate_nav (currentPage (app sys)) p (app sys)) as (Hc1 & Hp1 & Hu1).
  unfold abs_view.
  rewrite commit_page_no_edge, commit_previous, commit_auth.
  - cbn [set_app app auth]. rewrite Hc1, Hp1. reflexivity.
  - apply (ref_consistent_transfer _ sys); [reflexivity|exact Hu1|exact Hc].
  - cbn [set_app app auth]. rewrite Hu1. exact Hu.
Qed.

(** C10: the runtime refines the spec's machine: after any step of a
    reachable state, the page, the page to go back to and the sign-in
    status are those of the abstract transition of the event. *)
Theorem step_refines sys ev sys' :
  reachable sys -> step ev sys = Some sys' ->
  abs_view sys' = abs_event ev (abs_view sys).
Proof.
  intros Hr Hstep. destruct (reachable_inv sys Hr) as (Hs & Hc & Hp & _).
  pose proof (settled_ref sys Hs Hc) as Hu.
  unfold abs_view. destruct ev as [ctx|b|o|[p|]|pos]; simpl in Hstep.
  - injection Hstep as <-. rewrite commit_page, commit_previous, commit_auth by done.
    cbn [set_auth auth app]. rewrite watcher_effect_table, Hu. reflexivity.
  - injection Hstep as <-.
    rewrite commit_page_no_edge, commit_previous, commit_auth by done. done.
  - destruct (task sys) as [req k|r]; [|done]. injection Hstep as <-. simpl.
    destruct (run_task_nav (k o) sys) as (Hd & Ha & Hcp & Hpp & Hru).
    rewrite commit_page_no_edge, commit_previous, commit_auth;
      [|by eapply ref_consistent_transfer|by rewrite Hru, Ha].
    by rewrite Hcp, Hpp, Ha.
  - destruct (rendered sys) as [|v] eqn:Er; [done|].
    destruct (rendered_themed sys v Er) as (-> & _).
    rewrite renderPage_eq in Hstep.
    case_bool_decide; simpl in Hstep; [done|]. injection Hstep as <-.
    by apply step_navigate_refines.
  - destruct (rendered sys) as [|v] eqn:Er; [done|].
    destruct (rendered_themed sys v Er) as (-> & _).
    rewrite renderPage_eq in Hstep.
    case_bool_decide; simpl in Hstep; [|done]. injection Hstep as <-.
    by apply step_navigate_refines.
  - by injection Hstep as <-.
Qed.

(** C30: the runtime starts in the spec's initial state: on the home
    page, with home to go back to; and behind the readiness gate: the
    first frame of [App] is the loading indicator whatever the providers
    publish, since the start-up task still awaits its read. *)
Theorem mount_refines ctx translations sc :
  abs_view (mount ctx translations sc) = a_init (present (ctx_currentUser ctx)) /\
  rendered (App ctx translations sc) = LoadingIndicator.
Proof.
  split.
  2:{ unfold rendered, appContent_render, App. rewrite mount_initializing.
      by rewrite orb_true_r. }
  unfold mount. set (sys0 := run_task _ _).
  destruct (run_task_nav initializeApp
    (mkSys (initial_state (ctx_currentUser ctx) sc) ctx translations None
       (TaskSettled (Fulfilled tt)) [])) as (Hd & Ha & Hcp & Hpp & Hru).
  unfold abs_view. rewrite commit_page_no_edge, commit_previous.
  - fold sys0 in Ha, Hcp, Hpp. rewrite Hcp, Hpp.
    by destruct (commit_frame sys0) as (-> & _); rewrite Ha.
  - intros u p Hn. fold sys0 in Hd. by rewrite Hd in Hn.
  - fold sys0 in Hru, Ha. by rewrite Hru, Ha.
Qed.

(** ** Witnesses *)

Lemma step_refines_witness :
  abs_view (commit (set_auth (mkAuthCtx (Some demo_user) false) demo_run)) =
  abs_event (AuthChanged (mkAuthCtx (Some demo_user) false)) (abs_view demo_run).
Proof.
  apply (step_refines demo_run (AuthChanged (mkAuthCtx (Some demo_user) false))).
  - apply reachable_run_events, reachable_mount.
  - reflexivity.
Defined.
