(* ===== verification/Lifecycle.v ===== *)
(** The host of [App]: mounting, unmounting and remounting [AppContent]
    against the collaborators of [Gateway]. The start-up effect of
    src/App.tsx (lines 26-44) returns no cleanup function, so unmounting
    does not cancel a pending [initializeApp()]: the promise keeps running
    detached from any component, its awaits are still answered by the
    gateway and the generator, its console output is still observed, and
    its state updates reach no component. Here the collaborators' answers
    come from the [World], so the system is closed: mounted instance,
    detached start-up tasks and store interleave in one event loop; a
    mount left to settle runs start-up as its big-step run against the
    world. *)

From stdpp Require Import gmap.
From S2P Require Import Prelude Types Async Gateway Init Navigation Render Runtime.

(** A suspension as the event loop holds it. *)
Definition susp_task (s : Suspension unit) : Task :=
  match s with
  | Finished r => TaskSettled r
  | Blocked req k => TaskPending req k
  end.

Section host.
Context {St : Type} `{PersistenceGateway St}.

Record Host : Type := mkHost {
  (** the collaborators: store, generator, failures *)
  world : World St;
  (** the mounted [AppContent], if any *)
  mounted : option Sys;
  (** start-up tasks of unmounted instances, still in flight *)
  detached : list Task;
  (** what the outside world observed of unmounted instances *)
  log : list Event
}.

Inductive HostEvent : Type :=
  | HMount (ctx : AuthCtx) (translations : bool) (sc : Z * Z)
  | HUnmount
  | HApp (ev : SysEvent)
  | HSettleApp
  | HSettleDetached (i : nat).

Definition host_init (w : World St) : Host := mkHost w None [] [].

(** Everything observed since the host started. *)
Definition observed (h : Host) : list Event :=
  log h ++ from_option trace [] (mounted h).

(** One event of the host. A settlement is answered by the collaborators
    from the current world; an unmounted instance's task runs to its next
    await and its effects on component state are dropped. *)
Definition host_step (ev : HostEvent) (h : Host) : option Host :=
  match ev, mounted h with
  | HMount ctx translations sc, None =>
      Some (mkHost (world h) (Some (mount ctx translations sc)) (detached h) (log h))
  | HUnmount, Some s =>
      Some (mkHost (world h) None (detached h ++ [task s]) (log h ++ trace s))
  | HApp e, Some s =>
      if is_settle e then None
      else s' ← step e s; Some (mkHost (world h) (Some s') (detached h) (log h))
  | HSettleApp, Some s =>
      match task s with
      | TaskPending req _ =>
          let '(o, w') := collab_handler req (world h) in
          s' ← step (TaskSettles o) s; Some (mkHost w' (Some s') (detached h) (log h))
      | TaskSettled _ => None
      end
  | HSettleDetached i, _ =>
      match detached h !! i with
      | Some (TaskPending req k) =>
          let '(o, w') := collab_handler req (world h) in
          let '(t, susp) := advance_trace (k o) in
          Some (mkHost w' (mounted h) (<[i := susp_task susp]> (detached h)) (log h ++ t))
      | _ => None
      end
  | _, _ => None
  end.

(** Run host events, skipping those that cannot happen. *)
Definition run_host (evs : list HostEvent) (h : Host) : Host :=
  foldl (fun h ev => default h (host_step ev h)) h evs.

Definition is_mount (ev : HostEvent) : bool :=
  match ev with HMount _ _ _ => true | _ => false end.

End host.

Arguments Host St : clear implicits.

(** ** Generation budgets *)

(** The generations a task may still request. *)
Definition budget_ok (t : Task) (m : nat) : Prop :=
  match t with
  | TaskPending _ k => forall o, req_le is_generate_req m (k o)
  | TaskSettled _ => True
  end.

(** A mounted instance has requested at most one generation, counting
    those its pending task may still request. *)
Lemma reachable_budget s :
  reachable s -> exists m, budget_ok (task s) m /\ count_where is_generate (trace s) + m <= 1.
Proof.
  intros Hr. destruct (reachable_inv s Hr) as (_ & _ & _ & Ht). unfold task_inv in Ht.
  unfold budget_ok. destruct (task s) as [req k|r].
  - destruct Ht as (_ & _ & _ & m & Hm & Hk). eauto.
  - exists 0. split; [done|lia].
Qed.

(** Running a task to its next await spends its budget on the
    generation it requests. *)
Lemma advance_trace_budget p m :
  req_le is_generate_req m p ->
  exists m', budget_ok (susp_task (advance_trace p).2) m' /\
    count_where is_generate (advance_trace p).1 + m' <= m.
Proof.
  intros Hp. unfold advance_trace. destruct (advance p) as [es [r|req k]] eqn:E; simpl.
  - exists 0. rewrite app_nil_r, count_generate_effects. split; [done|lia].
  - destruct (advance_blocked_req_le _ m p es req k Hp E) as (m' & -> & Hk).
    exists m'. split; [done|]. rewrite count_where_app, count_generate_effects.
    destruct req; simpl; lia.
Qed.

Section host_inv.
Context {St : Type} `{PersistenceGateway St}.

(** The mounted instance is a reachable runtime state, and the
    generations observed plus those the mounted and detached tasks may
    still request are at most [n]. *)
Definition host_inv (h : Host St) (n : nat) : Prop :=
  (forall s, mounted h = Some s -> reachable s) /\
  exists ms, Forall2 budget_ok (detached h) ms /\
    count_where is_generate (log h) + sum_list ms + (if present (mounted h) then 1 else 0) <= n.

Lemma host_inv_mono h n n' : host_inv h n -> n <= n' -> host_inv h n'.
Proof. intros [Hr (ms & Hf & Hc)] Hn. split; [done|]. exists ms. split; [done|lia]. Qed.

Lemma host_inv_observed h n : host_inv h n -> count_where is_generate (observed h) <= n.
Proof.
  intros [Hr (ms & _ & Hc)]. unfold observed. rewrite count_where_app.
  destruct (mounted h) as [s|]; simpl in *; [|lia].
  destruct (reachable_budget s (Hr s eq_refl)) as (m & _ & Hm). lia.
Qed.

Lemma host_step_inv ev h h' n :
  host_inv h n -> host_step ev h = Some h' ->
  host_inv h' (n + if is_mount ev then 1 else 0).
Proof.
  intros [Hr (ms & Hf & Hc)] Hstep.
  destruct ev as [ctx tr sc| |e| |i]; simpl in Hstep |- *.
  - destruct (mounted h) as [s|] eqn:Em; [done|]. injection Hstep as <-.
    split; [intros ? [= <-]; apply reachable_mount|].
    exists ms. simpl in *. split; [done|simpl in *; lia].
  - destruct (mounted h) as [s|] eqn:Em; simplify_eq.
    destruct (reachable_budget s (Hr s eq_refl)) as (m & Hb & Hm).
    split; [done|]. exists (ms ++ [m]). simpl. split; [by apply Forall2_app; auto|].
    rewrite count_where_app, sum_list_with_app. simpl in *. lia.
  - destruct (mounted h) as [s|] eqn:Em; [|done]. destruct (is_settle e); [done|].
    destruct (step e s) as [s'|] eqn:Es; [|done]. injection Hstep as <-.
    split; [intros ? [= <-]; eapply reachable_step; [by apply Hr|exact Es]|]. exists ms. split; [done|simpl in *; lia].
  - destruct (mounted h) as [s|] eqn:Em; [|done].
    destruct (task s) as [req k|r] eqn:Et; [|done].
    destruct (collab_handler req (world h)) as [o w']. injection Hstep as <-.
    split; [intros ? [= <-]; eapply (reachable_step s (TaskSettles o));
      [by apply Hr|simpl; by rewrite Et]|]. exists ms. split; [done|simpl in *; lia].
  - destruct (detached h !! i) as [[req k|r]|] eqn:Ei; [|done|done].
    destruct (collab_handler req (world h)) as [o w'].
    destruct (Forall2_lookup_l _ _ _ i _ Hf Ei) as (mi & Hmi & Hb).
    destruct (advance_trace_budget (k o) mi (Hb o)) as (m' & Hb' & Hm').
    destruct (advance_trace (k o)) as [t susp]; simplify_eq/=.
    split; [done|]. exists (<[i := m']> ms). split; [by apply Forall2_insert|].
    pose proof (sum_list_insert ms i mi m' Hmi). cbn [log mounted]. rewrite count_where_app. lia.
Qed.

Lemma run_host_inv evs h n :
  host_inv h n -> host_inv (run_host evs h) (n + count_where is_mount evs).
Proof.
  revert h n. induction evs as [|ev evs IH]; intros h n Hi; simpl.
  - by rewrite Nat.add_0_r.
  - destruct (host_step ev h) as [h'|] eqn:E; simpl.
    + replace (n + _) with ((n + if is_mount ev then 1 else 0) + count_where is_mount evs) by lia.
      apply IH. by eapply host_step_inv.
    + apply (host_inv_mono _ (n + count_where is_mount evs)); [by apply IH|lia].
Qed.

End host_inv.

(** ** The closed world drives start-up *)

Section host_drive.
Context {St : Type} `{PersistenceGateway St}.

Lemma run_host_cons ev evs (h : Host St) :
  run_host (ev :: evs) h = run_host evs (default h (host_step ev h)).
Proof. done. Qed.

Lemma run_host_app evs1 evs2 (h : Host St) :
  run_host (evs1 ++ evs2) h = run_host evs2 (run_host evs1 h).
Proof. apply foldl_app. Qed.

(** Settling the mounted instance [n] times, each request answered by
    the collaborators from the current world, drives its task. *)
Lemma run_host_settle_app n (h : Host St) s :
  mounted h = Some s ->
  let '(t, s2, w2) := drive collab_handler n (task_susp (task s)) (world h) in
  exists s', run_host (repeat HSettleApp n) h = mkHost w2 (Some s') (detached h) (log h) /\
    trace s' = trace s ++ t /\ task_susp (task s') = s2.
Proof.
  revert h s. induction n as [|n IH]; intros [w m d l] s Hm; simpl in Hm; subst m.
  { exists s. simpl. by rewrite app_nil_r. }
  cbn [repeat]. rewrite run_host_cons.
  destruct (task s) as [req k|r] eqn:Et; cbn [task_susp].
  - cbn [drive]. destruct (collab_handler req w) as [o w1] eqn:Ec.
    assert (Hs : host_step HSettleApp (mkHost w (Some s) d l) =
      Some (mkHost w1 (Some (commit (run_task (k o) s))) d l)).
    { simpl. rewrite Et, Ec. simpl. rewrite ?Et. done. }
    rewrite Hs. simpl. rewrite Ec.
    destruct (run_task_trace (k o) s) as [Htr Hts].
    rewrite <- commit_trace in Htr. rewrite <- commit_task in Hts.
    specialize (IH (mkHost w1 (Some (commit (run_task (k o) s))) d l) _ eq_refl).
    simpl in IH. rewrite Hts in IH.
    destruct (advance_trace (k o)) as [t1 s1]. simpl in IH, Htr, Hts.
    destruct (drive collab_handler n s1 w1) as [[t2 s2] w2]. simpl in IH |- *.
    destruct IH as (s' & Hrun & Htr' & Hts'). exists s'.
    split; [done|]. split; [|done]. rewrite Htr', Htr. simpl. by rewrite app_assoc.
  - rewrite drive_finished.
    assert (Hs : host_step HSettleApp (mkHost w (Some s) d l) = None)
      by (simpl; by rewrite Et).
    rewrite Hs. simpl.
    specialize (IH (mkHost w (Some s) d l) _ eq_refl). simpl in IH.
    rewrite Et in IH. cbn [task_susp] in IH. rewrite drive_finished in IH. exact IH.
Qed.

Lemma host_mount_drive (h : Host St) ctx translations sc n :
  mounted h = None ->
  let '(t, s2, w2) := drive_from collab_handler n initializeApp (world h) in
  exists s, run_host (HMount ctx translations sc :: repeat HSettleApp n) h =
      mkHost w2 (Some s) (detached h) (log h) /\ trace s = t /\ task_susp (task s) = s2.
Proof.
  intros Hm. destruct (mount_advance ctx translations sc) as [Htr Hts].
  assert (Hmount : host_step (HMount ctx translations sc) h =
    Some (mkHost (world h) (Some (mount ctx translations sc)) (detached h) (log h)))
    by (unfold host_step; by rewrite Hm).
  rewrite run_host_cons, Hmount. cbn [default].
  pose proof (run_host_settle_app n (mkHost (world h) (Some (mount ctx translations sc))
    (detached h) (log h)) _ eq_refl) as Hd. cbn [world mounted detached log] in Hd.
  rewrite Hts, Htr in Hd. unfold drive_from.
  destruct (advance_trace initializeApp) as [t1 s1].
  change ((t1, s1).1) with t1 in Hd. change ((t1, s1).2) with s1 in Hd.
  destruct (drive collab_handler n s1 (world h)) as [[t2 s2] w2]. exact Hd.
Qed.

(** Mounting on a free host and settling three times runs start-up. *)
Lemma host_mount_settles (h : Host St) ctx translations sc :
  mounted h = None ->
  let '(r, w', t) := run collab_handler initializeApp (world h) in
  exists s, run_host (HMount ctx translations sc :: repeat HSettleApp 3) h =
      mkHost w' (Some s) (detached h) (log h) /\
    trace s = t /\ task s = TaskSettled r.
Proof.
  intros Hm. pose proof (host_mount_drive h ctx translations sc 3 Hm) as Hd.
  rewrite (drive_run collab_handler 3 initializeApp (world h) initializeApp_awaits_le) in Hd.
  destruct (run collab_handler initializeApp (world h)) as [[r w'] t].
  destruct Hd as (s' & Hrun & Htr' & Hts'). exists s'.
  split; [done|]. split; [done|]. destruct (task s'); simpl in Hts'; congruence.
Qed.

(** C29: closed-world start-up: mounting [App] on a host with no mounted
    instance and letting the collaborators answer three times performs
    start-up as the spec describes it against them: the instance observed
    the spec's sequence of reads, logs, generation, write and flag
    clearing, the world afterwards is the one that sequence leaves, and
    the start-up promise is fulfilled. *)
Theorem host_startup_runs_collab (h : Host St) ctx translations sc :
  mounted h = None ->
  exists s, run_host (HMount ctx translations sc :: repeat HSettleApp 3) h =
      mkHost (initializeApp_spec collab_handler (world h)).1.2 (Some s) (detached h) (log h) /\
    trace s = (initializeApp_spec collab_handler (world h)).2 /\
    task s = TaskSettled (Fulfilled tt).
Proof.
  intros Hm. pose proof (host_mount_settles h ctx translations sc Hm) as H1.
  rewrite initializeApp_run_eq in H1.
  pose proof (initializeApp_spec_outcome collab_handler (world h)) as Ho.
  destruct (initializeApp_spec collab_handler (world h)) as [[r w'] t].
  destruct Ho as (-> & _). exact H1.
Qed.

End host_drive.

(** ** What the host guarantees *)

Section host_laws.
Context {St : Type} `{PersistenceGatewayLaws St}.

(** C25: over any sequence of mounts, unmounts, app events and
    settlements of mounted or detached start-up tasks, the image
    generator is requested at most once per mount. *)
Theorem host_generations_le_mounts (w : World St) evs :
  count_where is_generate (observed (run_host evs (host_init w))) <= count_where is_mount evs.
Proof.
  apply host_inv_observed. rewrite <- (Nat.add_0_l (count_where is_mount evs)).
  apply run_host_inv. split; [done|]. exists []. split; [constructor|done].
Qed.

(** Start-up on a world with no truthy avatar, driven through two
    settlements: it awaits the write of the generated avatar, and
    answering that write finishes it. *)
Lemma initializeApp_drive_write (w : World St) url :
  reliable w -> truthy (default JUndefined (getValue aiAvatarKey (store w))) = false ->
  generator w aiAvatarPrompt = Fulfilled url ->
  exists k, drive_from collab_handler 2 initializeApp w =
    ([ev_get; ev_log; ev_gen; ev_set url], Blocked (SetValue aiAvatarKey url) k, w) /\
    advance_trace (k (Fulfilled JUndefined)) = ([ev_done], Finished (Fulfilled tt)).
Proof.
  intros Hr Hv Hg. unfold drive_from. simpl.
  rewrite collab_handler_reliable by done. simpl. rewrite Hv. simpl.
  rewrite collab_handler_reliable by done. simpl. rewrite Hg. simpl.
  eexists. split; reflexivity.
Qed.

(** C31: unmounting does not abort an in-flight write (spec section 5):
    on a reliable world with no truthy avatar, mount, let the read and
    the generation answer, and unmount while the write is awaited; when
    the write settles, the avatar is in the store, the detached start-up
    has finished with a fulfilled promise, and what was observed is the
    whole start-up with no component mounted. *)
Theorem unmount_completes_write (w : World St) ctx translations sc url :
  reliable w -> truthy (default JUndefined (getValue aiAvatarKey (store w))) = false ->
  generator w aiAvatarPrompt = Fulfilled url ->
  let h := run_host ((HMount ctx translations sc :: repeat HSettleApp 2) ++
                     [HUnmount; HSettleDetached 0]) (host_init w) in
  mounted h = None /\ getValue aiAvatarKey (store (world h)) = Some url /\
  detached h = [TaskSettled (Fulfilled tt)] /\
  observed h = [ev_get; ev_log; ev_gen; ev_set url; ev_done].
Proof.
  intros Hr Hv Hg. destruct (initializeApp_drive_write w url Hr Hv Hg) as (k & Hd & Hk).
  pose proof (host_mount_drive (host_init w) ctx translations sc 2 eq_refl) as H2.
  cbn [world host_init] in H2. rewrite Hd in H2. destruct H2 as (s & Hrun & Htr & Hts).
  rewrite run_host_app, Hrun. destruct (task s) as [req k'|r] eqn:Et; simpl in Hts; [|done].
  injection Hts as -> ->. unfold run_host. simpl. rewrite Htr, Et.
  rewrite collab_handler_reliable by done. simpl. rewrite Hk. simpl.
  by rewrite getValue_setValue_eq.
Qed.
(** C24: a completed start-up is reused across remounts: on a reliable
    world with no truthy avatar stored and a truthy generated one, mount,
    let start-up complete, unmount and mount again: the second instance
    reads the stored avatar and its start-up completes without asking
    the generator, so one generation was requested in all. *)
Theorem host_remount_cached (w : World St) ctx translations sc url :
  reliable w -> truthy (default JUndefined (getValue aiAvatarKey (store w))) = false ->
  generator w aiAvatarPrompt = Fulfilled url -> truthy url = true ->
  let h := run_host ((HMount ctx translations sc :: repeat HSettleApp 3) ++
                     HUnmount :: HMount ctx translations sc :: repeat HSettleApp 3)
             (host_init w) in
  count_where is_generate (observed h) = 1 /\
  exists s, mounted h = Some s /\ task s = TaskSettled (Fulfilled tt) /\
    trace s = [ev_get; ev_done].
Proof.
  intros Hr Hv Hg Hu. rewrite run_host_app.
  pose proof (host_mount_settles (host_init w) ctx translations sc eq_refl) as H1.
  rewrite (initializeApp_collab_generates w url) in H1 by done.
  destruct H1 as (s1 & -> & Htr1 & Hts1).
  set (w1 := with_store w (setValue aiAvatarKey url (store w))).
  rewrite run_host_cons. cbn [host_step mounted default id world detached log].
  pose proof (host_mount_settles (mkHost w1 None (detached (host_init w) ++ [task s1])
    (log (host_init w) ++ trace s1)) ctx translations sc eq_refl) as H2.
  cbn [world] in H2.
  rewrite (initializeApp_collab_cached w1 url) in H2;
    [|by apply reliable_with_store|apply getValue_setValue_eq|done].
  destruct H2 as (s2 & -> & Htr2 & Hts2). split.
  - unfold observed. cbn [log mounted from_option]. rewrite Htr1, Htr2. reflexivity.
  - by exists s2.
Qed.
End host_laws.

(** ** Remounting during start-up *)

Definition demo_ctx : AuthCtx := mkAuthCtx None false.

(** Mount, let the read answer (nothing stored), unmount while the
    generation is awaited, mount again and let the new read answer: the
    first write has not happened yet. *)
Definition remount_race : list HostEvent :=
  [HMount demo_ctx false (0, 0)%Z; HSettleApp; HUnmount;
   HMount demo_ctx false (0, 0)%Z; HSettleApp].

(** C36: the bound of C25 is reached: with an empty store, unmounting
    during start-up and remounting makes two instances request a
    generation, so "the generator is used exactly once, only when no
    cached avatar exists" does not hold across remounts. *)
Theorem remount_generates_twice :
  exists evs, count_where is_mount evs = 2 /\
    count_where is_generate (observed (run_host evs (host_init demo_world))) = 2.
Proof. exists remount_race. split; vm_compute; reflexivity. Qed.

(** ** Witnesses *)

(** Mount with an empty store and answer the read and the generation:
    the start-up now awaits the write. *)
Lemma unmount_completes_write_witness :
  let h := run_host ((HMount demo_ctx false (0, 0)%Z :: repeat HSettleApp 2) ++
                     [HUnmount; HSettleDetached 0]) (host_init demo_world) in
  mounted h = None /\ getValue aiAvatarKey (store (world h)) = Some demo_avatar /\
  detached h = [TaskSettled (Fulfilled tt)] /\
  observed h = [ev_get; ev_log; ev_gen; ev_set demo_avatar; ev_done].
Proof.
  apply (unmount_completes_write demo_world demo_ctx false (0, 0)%Z demo_avatar);
    [intros ?|..]; reflexivity.
Defined.

Lemma host_remount_cached_witness :
  let h := run_host ((HMount demo_ctx false (0, 0)%Z :: repeat HSettleApp 3) ++
                     HUnmount :: HMount demo_ctx false (0, 0)%Z :: repeat HSettleApp 3)
             (host_init demo_world) in
  count_where is_generate (observed h) = 1 /\
  exists s, mounted h = Some s /\ task s = TaskSettled (Fulfilled tt) /\
    trace s = [ev_get; ev_done].
Proof.
  apply (host_remount_cached demo_world demo_ctx false (0, 0)%Z demo_avatar);
    [intros ?|..]; reflexivity.
Defined.

Lemma host_startup_runs_collab_witness :
  exists s, run_host (HMount demo_ctx false (0, 0)%Z :: repeat HSettleApp 3)
      (host_init demo_world) =
      mkHost (initializeApp_spec collab_handler (world (host_init demo_world))).1.2 (Some s)
        (detached (host_init demo_world)) (log (host_init demo_world)) /\
    trace s = (initializeApp_spec collab_handler (world (host_init demo_world))).2 /\
    task s = TaskSettled (Fulfilled tt).
Proof. apply (host_startup_runs_collab (host_init demo_world)). reflexivity. Defined.
